(** * Droppy: the directory-state synchronisation engine of [server.js]

    A shallow embedding of the parts of [server.js] that keep the connected
    clients in step with the watched directory: the global [fileList], the
    rebuild started by [prepareFileList], the broadcast done by [SendUpdate],
    the socket and HTTP handlers that call them, the [debounce] helper and
    the size formatter [convertToSI].

    Node runs every callback to completion on one thread, so a handler is a
    function from the state of the process to a result; what the operating
    system answers (a directory listing, a stat, a listen error) is an input
    of the handler that receives it.

    Left out: the router [onRequest] with its log line, the page at [/] and
    the files under [/res/] with their [cache], and the time stamp that
    [log] puts before each line. None of them reads or writes [fileList],
    the sockets or the timers. *)

From Stdlib Require Import Ascii Lia.
From stdpp Require Import base numbers strings list gmap fin_maps sorting pretty.

Set Warnings "-register-all".

Local Open Scope string_scope.
Local Open Scope list_scope.
Local Open Scope N_scope.

(** * Values *)

(** File kinds that [fs.statSync] can report ([stat] follows symbolic links,
    so a link never shows up as such; a dangling one makes the call throw). *)
Inductive FileType :=
  | S_IFREG | S_IFDIR | S_IFIFO | S_IFSOCK | S_IFCHR | S_IFBLK.

Record Stats := { st_mode : FileType; st_size : N }.

Definition isFile (s : Stats) : bool :=
  match st_mode s with S_IFREG => true | _ => false end.

Definition isDirectory (s : Stats) : bool :=
  match st_mode s with S_IFDIR => true | _ => false end.

(** A JS [Error] object: the fields the server looks at. *)
Record Error := { err_code : string; err_message : string; err_stack : string }.

(** The error V8 raises when a property of [undefined] is read. *)
Definition TypeError_undefined (prop : string) : Error :=
  let msg := "Cannot read property '" +:+ prop +:+ "' of undefined" in
  {| err_code := ""; err_message := msg; err_stack := "TypeError: " +:+ msg |}.

(** The error V8 raises when [undefined] is applied. *)
Definition TypeError_not_callable : Error :=
  let msg := "Cannot call method 'apply' of undefined" in
  {| err_code := ""; err_message := msg; err_stack := "TypeError: " +:+ msg |}.

(** One value of [fileList]: [{"name": name, "type": type, "size": stats.size}]. *)
Record Entry := { e_name : string; e_type : string; e_size : N }.

(** [fileList] is a plain JS object whose property names are listing
    indices. *)
Abbreviation FileList := (gmap nat Entry).

(** * JSON.stringify *)

Inductive Json :=
  | JNumber (n : N)
  | JString (s : string)
  | JArray (items : list Json)
  | JObject (members : list (string * Json)).

Definition hex_digit (n : N) : ascii :=
  match n with
  | 0 => "0" | 1 => "1" | 2 => "2" | 3 => "3" | 4 => "4" | 5 => "5"
  | 6 => "6" | 7 => "7" | 8 => "8" | 9 => "9" | 10 => "a" | 11 => "b"
  | 12 => "c" | 13 => "d" | 14 => "e" | _ => "f"
  end%char.

(** QuoteJSONString on one code unit. *)
Definition quote_char (c : ascii) : string :=
  let n := N_of_ascii c in
  if decide (n = 34) then "\" +:+ String c ""
  else if decide (n = 92) then "\\"
  else if decide (n = 8) then "\b"
  else if decide (n = 12) then "\f"
  else if decide (n = 10) then "\n"
  else if decide (n = 13) then "\r"
  else if decide (n = 9) then "\t"
  else if decide (n < 32) then
    "\u00" +:+ String (hex_digit (n / 16)) (String (hex_digit (n mod 16)) "")
  else String c "".

Fixpoint quote_body (s : string) : string :=
  match s with
  | EmptyString => ""
  | String c s' => quote_char c +:+ quote_body s'
  end.

Definition dquote : string := String (ascii_of_N 34) "".

Definition quote (s : string) : string := dquote +:+ quote_body s +:+ dquote.

Fixpoint join (sep : string) (l : list string) : string :=
  match l with
  | [] => ""
  | [x] => x
  | x :: l' => x +:+ sep +:+ join sep l'
  end.

Fixpoint stringify (j : Json) : string :=
  match j with
  | JNumber n => pretty n
  | JString s => quote s
  | JArray items => "[" +:+ join "," (List.map stringify items) +:+ "]"
  | JObject members =>
      "{" +:+ join "," (List.map (λ kv, quote (fst kv) +:+ ":" +:+ stringify (snd kv))
                                  members) +:+ "}"
  end.

Definition Entry_toJSON (e : Entry) : Json :=
  JObject [("name", JString (e_name e)); ("type", JString (e_type e));
           ("size", JNumber (e_size e))].

(** Own properties with integer names are enumerated in ascending numeric
    order. *)
Definition key_le (a b : nat * Entry) : Prop := (a.1 ≤ b.1)%nat.

Global Instance key_le_dec a b : Decision (key_le a b) :=
  decide (a.1 ≤ b.1)%nat.

Definition own_properties (o : FileList) : list (nat * Entry) :=
  merge_sort key_le (map_to_list o).

Definition FileList_toJSON (o : FileList) : Json :=
  JObject (List.map (λ kv, (pretty (N.of_nat (fst kv)), Entry_toJSON (snd kv)))
                    (own_properties o)).

Definition JSON_stringify (o : FileList) : string := stringify (FileList_toJSON o).

(** * The state of the process *)

(** The one function the server passes to [prepareFileList]:
    [function(){ SendUpdate(); }]. *)
Inductive Callback := CbSendUpdate.

(** Function values that reach [debounce]. *)
Inductive JsFun := FnRun (callback : option Callback).

(** What an asynchronous [fs] call will do with its answer. *)
Inductive Continuation :=
  | KFill (callback : option Callback)   (* the callback of [fs.readdir] in [run] *)
  | KDelete (url socket : string)        (* the callback of [fs.readdir] in [handleDeleteRequest] *)
  | KStat (path mimeType socket : string) (* the callback of [fs.stat] in [handleFileRequest] *)
  | KMkdir.                              (* the callback of [fs.mkdir] in [CREATE_FOLDER] *)

Inductive FsCall :=
  | Readdir (path : string)
  | Stat (path : string)
  | Mkdir (path : string)
  | Unlink (path : string)
  | Rmdir (path : string)
  | CreateReadStream (path : string)
  | WatchDir (path : string).

(** Operations on the [res] object of a request. *)
Inductive ResOp :=
  | WriteHead (status : N) (headers : list (string * string))
  | End
  | Piped (path : string).

(** The closure made by one call of [debounce]: its arguments and its
    variable [timeout] ([result] only ever holds what [func] returns, which
    is [undefined] for every function of the server). *)
Record Debounced := {
  d_func : option JsFun;
  d_wait : N;
  d_immediate : bool;
  d_timeout : option nat
}.

Record Timer := { t_id : nat; t_due : N; t_closure : nat }.

(** An [fs] call: when it was made, what it asks, and the callback it was
    given when it has one. *)
Record FsEntry := { fs_at : N; fs_what : FsCall; fs_then : option Continuation }.

(** [var server]: not made yet; made and told to listen; bound; refused by
    the operating system. *)
Inductive ServerState := NoServer | Binding | Listening | BindFailed.

Global Instance ServerState_eq_dec : EqDecision ServerState.
Proof. solve_decision. Defined.

Record World := {
  fileList : FileList;            (* [var fileList] *)
  last : option N;                (* [var last] *)
  clock : N;                      (* what [new Date()] reads, in ms *)
  console : list string;          (* lines given to [log], without their time stamp *)
  server : ServerState;           (* [var server] *)
  io_attached : bool;             (* [io = io.listen(server, ...)] was done *)
  sockets_ready : bool;           (* the "connection" listener of [setupSockets] is in place *)
  clients : list nat;             (* [io.sockets]: the connected sockets *)
  emitted : list (nat * (string * string)); (* (socket, (event, payload)) sent so far *)
  timers : list Timer;            (* pending [setTimeout]s *)
  next_timer : nat;
  closures : list Debounced;      (* the closures [debounce] has made *)
  pending : list Continuation;    (* asynchronous [fs] calls not yet answered *)
  fs_log : list FsEntry;          (* every [fs] call issued *)
  http : list (string * ResOp)    (* operations on responses, by request socket *)
}.

Definition init : World :=
  {| fileList := ∅; last := None; clock := 0; console := []; server := NoServer;
     io_attached := false; sockets_ready := false; clients := []; emitted := [];
     timers := []; next_timer := 0; closures := []; pending := []; fs_log := [];
     http := [] |}.

Definition set_fileList (v : FileList) (w : World) : World :=
  {| fileList := v; last := last w; clock := clock w; console := console w;
     server := server w; io_attached := io_attached w; sockets_ready := sockets_ready w;
     clients := clients w; emitted := emitted w; timers := timers w;
     next_timer := next_timer w; closures := closures w; pending := pending w;
     fs_log := fs_log w; http := http w |}.

Definition set_last (v : option N) (w : World) : World :=
  {| fileList := fileList w; last := v; clock := clock w; console := console w;
     server := server w; io_attached := io_attached w; sockets_ready := sockets_ready w;
     clients := clients w; emitted := emitted w; timers := timers w;
     next_timer := next_timer w; closures := closures w; pending := pending w;
     fs_log := fs_log w; http := http w |}.

Definition set_clock (v : N) (w : World) : World :=
  {| fileList := fileList w; last := last w; clock := v; console := console w;
     server := server w; io_attached := io_attached w; sockets_ready := sockets_ready w;
     clients := clients w; emitted := emitted w; timers := timers w;
     next_timer := next_timer w; closures := closures w; pending := pending w;
     fs_log := fs_log w; http := http w |}.

Definition set_console (v : list string) (w : World) : World :=
  {| fileList := fileList w; last := last w; clock := clock w; console := v;
     server := server w; io_attached := io_attached w; sockets_ready := sockets_ready w;
     clients := clients w; emitted := emitted w; timers := timers w;
     next_timer := next_timer w; closures := closures w; pending := pending w;
     fs_log := fs_log w; http := http w |}.

Definition set_server (v : ServerState) (w : World) : World :=
  {| fileList := fileList w; last := last w; clock := clock w; console := console w;
     server := v; io_attached := io_attached w; sockets_ready := sockets_ready w;
     clients := clients w; emitted := emitted w; timers := timers w;
     next_timer := next_timer w; closures := closures w; pending := pending w;
     fs_log := fs_log w; http := http w |}.

Definition set_io_attached (v : bool) (w : World) : World :=
  {| fileList := fileList w; last := last w; clock := clock w; console := console w;
     server := server w; io_attached := v; sockets_ready := sockets_ready w;
     clients := clients w; emitted := emitted w; timers := timers w;
     next_timer := next_timer w; closures := closures w; pending := pending w;
     fs_log := fs_log w; http := http w |}.

Definition set_sockets_ready (v : bool) (w : World) : World :=
  {| fileList := fileList w; last := last w; clock := clock w; console := console w;
     server := server w; io_attached := io_attached w; sockets_ready := v;
     clients := clients w; emitted := emitted w; timers := timers w;
     next_timer := next_timer w; closures := closures w; pending := pending w;
     fs_log := fs_log w; http := http w |}.

Definition set_clients (v : list nat) (w : World) : World :=
  {| fileList := fileList w; last := last w; clock := clock w; console := console w;
     server := server w; io_attached := io_attached w; sockets_ready := sockets_ready w;
     clients := v; emitted := emitted w; timers := timers w;
     next_timer := next_timer w; closures := closures w; pending := pending w;
     fs_log := fs_log w; http := http w |}.

Definition set_emitted (v : list (nat * (string * string))) (w : World) : World :=
  {| fileList := fileList w; last := last w; clock := clock w; console := console w;
     server := server w; io_attached := io_attached w; sockets_ready := sockets_ready w;
     clients := clients w; emitted := v; timers := timers w;
     next_timer := next_timer w; closures := closures w; pending := pending w;
     fs_log := fs_log w; http := http w |}.

Definition set_timers (v : list Timer) (n : nat) (w : World) : World :=
  {| fileList := fileList w; last := last w; clock := clock w; console := console w;
     server := server w; io_attached := io_attached w; sockets_ready := sockets_ready w;
     clients := clients w; emitted := emitted w; timers := v;
     next_timer := n; closures := closures w; pending := pending w;
     fs_log := fs_log w; http := http w |}.

Definition set_closures (v : list Debounced) (w : World) : World :=
  {| fileList := fileList w; last := last w; clock := clock w; console := console w;
     server := server w; io_attached := io_attached w; sockets_ready := sockets_ready w;
     clients := clients w; emitted := emitted w; timers := timers w;
     next_timer := next_timer w; closures := v; pending := pending w;
     fs_log := fs_log w; http := http w |}.

Definition set_pending (v : list Continuation) (w : World) : World :=
  {| fileList := fileList w; last := last w; clock := clock w; console := console w;
     server := server w; io_attached := io_attached w; sockets_ready := sockets_ready w;
     clients := clients w; emitted := emitted w; timers := timers w;
     next_timer := next_timer w; closures := closures w; pending := v;
     fs_log := fs_log w; http := http w |}.

Definition set_fs_log (v : list FsEntry) (w : World) : World :=
  {| fileList := fileList w; last := last w; clock := clock w; console := console w;
     server := server w; io_attached := io_attached w; sockets_ready := sockets_ready w;
     clients := clients w; emitted := emitted w; timers := timers w;
     next_timer := next_timer w; closures := closures w; pending := pending w;
     fs_log := v; http := http w |}.

Definition set_http (v : list (string * ResOp)) (w : World) : World :=
  {| fileList := fileList w; last := last w; clock := clock w; console := console w;
     server := server w; io_attached := io_attached w; sockets_ready := sockets_ready w;
     clients := clients w; emitted := emitted w; timers := timers w;
     next_timer := next_timer w; closures := closures w; pending := pending w;
     fs_log := fs_log w; http := v |}.

(** * Handlers: state and exceptions *)

Inductive Result (A : Type) :=
  | Ok (a : A) (w : World)
  | Throw (e : Error) (w : World).
Arguments Ok {A} a w.
Arguments Throw {A} e w.

Definition M (A : Type) : Type := World → Result A.

Definition world_of {A} (r : Result A) : World :=
  match r with Ok _ w => w | Throw _ w => w end.

Global Instance M_ret : MRet M := λ A a w, Ok a w.

Global Instance M_bind : MBind M := λ A B f m w,
  match m w with
  | Ok a w' => f a w'
  | Throw e w' => Throw e w'
  end.

Definition throw {A} (e : Error) : M A := λ w, Throw e w.

(** [try { m } catch (error) { h error }] *)
Definition try_catch {A} (m : M A) (h : Error → M A) : M A := λ w,
  match m w with
  | Ok a w' => Ok a w'
  | Throw e w' => h e w'
  end.

Definition get {A} (f : World → A) : M A := λ w, Ok (f w) w.
Definition modify (f : World → World) : M unit := λ w, Ok tt (f w).

(** * [convertToSI] *)

Fixpoint zeros (n : nat) : string :=
  match n with O => "" | S n' => String "0" (zeros n') end.

(** [x.toFixed(2)] for the number [x = num / den], after ECMA-262: take the
    integer [n] for which [n / 100 - x] is closest to zero, the larger one
    when there are two; write its digits, padded with zeros on the left to
    three at least; put the point before the last two. *)
Definition toFixed2 (num den : N) : string :=
  let n := (2 * 100 * num + den) / (2 * den) in
  let m := pretty n in
  let k := String.length m in
  let m := if decide (k ≤ 2)%nat then zeros (2 + 1 - k) +:+ m else m in
  let k := String.length m in
  String.substring 0 (k - 2) m +:+ "." +:+ String.substring (k - 2) 2 m.

(** [bytes] is a whole number of bytes; dividing one below [2 ^ 53] by a
    power of two is exact in double precision, so the quotient handed to
    [toFixed] is the rational [bytes / kib] itself. *)
Definition convertToSI (bytes : N) : string :=
  let kib := 1024 in
  let mib := kib * 1024 in
  let gib := mib * 1024 in
  let tib := gib * 1024 in
  if (0 <=? bytes) && (bytes <? kib) then pretty bytes +:+ " B"
  else if (kib <=? bytes) && (bytes <? mib) then toFixed2 bytes kib +:+ " KiB"
  else if (mib <=? bytes) && (bytes <? gib) then toFixed2 bytes mib +:+ " MiB"
  else if (gib <=? bytes) && (bytes <? tib) then toFixed2 bytes gib +:+ " GiB"
  else if tib <=? bytes then toFixed2 bytes tib +:+ " TiB"
  else pretty bytes +:+ " B".

(** * The server *)

(** [config.json] is not part of the sources: its fields are parameters. *)
Record Config := { filesDir : string; port : N }.

Definition readInterval : N := 200.

(** [url.replace(/^\/delete\//, "")] and the tests [url.match(/^\/res\//)]. *)
Fixpoint after_prefix (p s : string) : option string :=
  match p, s with
  | EmptyString, _ => Some s
  | String a p', String b s' => if decide (a = b) then after_prefix p' s' else None
  | String _ _, EmptyString => None
  end.

Definition starts_with (p s : string) : bool := bool_decide (is_Some (after_prefix p s)).

Definition replace_prefix (p s : string) : string := default s (after_prefix p s).

Section Server.
Context (config : Config).
(** The built-in [unescape] and the [mime.lookup] of the mime package. *)
Context (unescape : string → string) (mime_lookup : string → string).

(** ** Logging *)

Definition log (msg : string) : M unit :=
  modify (λ w, set_console (console w ++ [msg]) w).

Definition handleError (err : Error) : M unit :=
  (if bool_decide (err_message err = "") then mret tt else log (err_message err));;
  (if bool_decide (err_stack err = "") then mret tt else log (err_stack err)).

(** ** Primitives of the runtime *)

Definition Date_now : M N := get clock.

Definition fs_call (c : FsCall) : M unit :=
  modify (λ w, set_fs_log
    (fs_log w ++ [{| fs_at := clock w; fs_what := c; fs_then := None |}]) w).

Definition fs_async (c : FsCall) (k : Continuation) : M unit :=
  modify (λ w, set_fs_log
    (fs_log w ++ [{| fs_at := clock w; fs_what := c; fs_then := Some k |}]) w);;
  modify (λ w, set_pending (pending w ++ [k]) w).

(** [io.sockets.emit(event, data)] sends to every connected socket. *)
Definition io_sockets_emit (event data : string) : M unit :=
  modify (λ w, set_emitted (emitted w ++ List.map (λ s, (s, (event, data))) (clients w)) w).

Definition res_op (socket : string) (op : ResOp) : M unit :=
  modify (λ w, set_http (http w ++ [(socket, op)]) w).

Definition setTimeout (closure : nat) (wait : N) : M nat :=
  w ← get id;
  let t := {| t_id := next_timer w; t_due := clock w + wait; t_closure := closure |} in
  modify (set_timers (timers w ++ [t]) (S (next_timer w)));;
  mret (t_id t).

Definition clearTimeout (timeout : option nat) : M unit :=
  match timeout with
  | None => mret tt
  | Some i =>
      modify (λ w, set_timers (List.filter (λ t, negb (bool_decide (t_id t = i))) (timers w))
                              (next_timer w) w)
  end.

(** ** Send file list JSON over websocket *)

Definition SendUpdate : M unit :=
  o ← get fileList;
  io_sockets_emit "UPDATE_FILES" (JSON_stringify o).

Definition call_callback (cb : Callback) : M unit :=
  match cb with CbSendUpdate => SendUpdate end.

(** ** Read the directory's content and store it in the fileList object *)

(** One turn of the [for] loop. [type] is declared by [var] inside the
    loop, so it is one variable of the enclosing callback: a turn starts
    with the value the turn before left in it. *)
Definition fill_step (statSync : string → Error + Stats) (i : nat) (name : string)
    (type : option string) : M (option string) :=
  match statSync (filesDir config +:+ name) with
  | inr stats =>
      let type := if isFile stats then Some "f" else type in
      let type := if isDirectory stats then Some "d" else type in
      match type with
      | Some t =>
          if bool_decide (t = "f") || bool_decide (t = "d") then
            modify (λ w, set_fileList
                           (<[i := {| e_name := name; e_type := t; e_size := st_size stats |}]>
                              (fileList w)) w);;
            mret type
          else mret type
      | None => mret type
      end
  | inl error => handleError error;; mret type
  end.

Fixpoint fill_loop (statSync : string → Error + Stats) (i : nat) (files : list string)
    (type : option string) : M unit :=
  match files with
  | [] => mret tt
  | name :: rest =>
      type ← fill_step statSync i name type;
      fill_loop statSync (S i) rest type
  end.

(** The callback [run] gives to [fs.readdir]. *)
Definition readdir_callback (callback : option Callback) (err : option Error)
    (files : option (list string)) (statSync : string → Error + Stats) : M unit :=
  (match err with Some e => handleError e | None => mret tt end);;
  match files with
  | None => throw (TypeError_undefined "length")
  | Some files =>
      fill_loop statSync 0 files None;;
      match callback with
      | Some cb => call_callback cb
      | None => mret tt
      end
  end.

(** The inner function [run]; it returns [undefined]. *)
Definition run (callback : option Callback) : M (option JsFun) :=
  now ← Date_now;
  modify (set_last (Some now));;
  modify (set_fileList ∅);;
  fs_async (Readdir (filesDir config)) (KFill callback);;
  mret None.

(** ** underscore's debounce *)

(** [debounce(func, wait, immediate)] makes a closure and returns it. *)
Definition debounce (func : option JsFun) (wait : N) (immediate : bool) : M nat :=
  w ← get id;
  modify (set_closures (closures w ++
    [{| d_func := func; d_wait := wait; d_immediate := immediate; d_timeout := None |}]));;
  mret (List.length (closures w)).

(** [func.apply(context, args)] *)
Definition apply (func : option JsFun) : M unit :=
  match func with
  | None => throw TypeError_not_callable
  | Some (FnRun callback) => run callback;; mret tt
  end.

Definition set_timeout_var (c : nat) (v : option nat) : M unit :=
  modify (λ w, set_closures
    (alter (λ d, {| d_func := d_func d; d_wait := d_wait d;
                    d_immediate := d_immediate d; d_timeout := v |}) c (closures w)) w).

(** The function [later] of the closure [c], run when its timer fires. *)
Definition later (c : nat) : M unit :=
  w ← get id;
  match closures w !! c with
  | None => mret tt
  | Some d =>
      set_timeout_var c None;;
      if d_immediate d then mret tt else apply (d_func d)
  end.

(** A call of the function that [debounce] returned. *)
Definition debounced (c : nat) : M unit :=
  w ← get id;
  match closures w !! c with
  | None => mret tt
  | Some d =>
      let callNow := d_immediate d && negb (bool_decide (is_Some (d_timeout d))) in
      clearTimeout (d_timeout d);;
      t ← setTimeout c (d_wait d);
      set_timeout_var c (Some t);;
      if callNow then apply (d_func d) else mret tt
  end.

(** [prepareFileList]: its one statement is [debounce(run(),readInterval)].
    The argument [run()] is a call, evaluated before [debounce] is
    entered; the function [debounce] returns is not called. *)
Definition prepareFileList (callback : option Callback) : M unit :=
  func ← run callback;
  _ ← debounce func readInterval false;
  mret tt.

(** ** Watch the directory for realtime changes *)

Definition createWatcher : M unit := fs_call (WatchDir (filesDir config)).

Definition watch_callback (event filename : string) : M unit :=
  if bool_decide (event = "change") || bool_decide (event = "rename")
  then prepareFileList (Some CbSendUpdate)
  else mret tt.

(** ** Websocket listener *)

Definition setupSockets : M unit := modify (set_sockets_ready true).

Definition on_REQUEST_UPDATE (socket : nat) : M unit := SendUpdate.

Definition on_CREATE_FOLDER (socket : nat) (name : string) : M unit :=
  fs_async (Mkdir (filesDir config +:+ name)) KMkdir.

Definition mkdir_callback (err : option Error) : M unit :=
  match err with Some e => handleError e | None => mret tt end.

(** ** GET /files/ *)

Definition tab : string := String (ascii_of_N 9) "".

(** [s.substring(n)] *)
Definition substring_from (n : nat) (s : string) : string :=
  String.substring n (String.length s - n) s.

Definition handleFileRequest (url socket : string) : M unit :=
  let path := filesDir config +:+
              unescape (substring_from (String.length (filesDir config) - 1) url) in
  if bool_decide (path = "") then mret tt
  else fs_async (Stat path) (KStat path (mime_lookup path) socket).

(** The callback of [fs.stat]. Its error branch has no [return]: control
    goes on to the statement after it. *)
Definition stat_callback (path mimeType socket : string) (err : option Error)
    (stats : option Stats) : M unit :=
  match err with
  | Some e =>
      res_op socket (WriteHead 500 []);;
      res_op socket End;;
      handleError e;;
      SendUpdate
  | None => mret tt
  end;;
  size ← match stats with
         | Some s => mret (st_size s)
         | None => throw (TypeError_undefined "size")
         end;
  log ("SEND: " +:+ socket +:+ tab +:+ tab +:+ path +:+ " (" +:+ convertToSI size +:+ ")");;
  res_op socket (WriteHead 200 [("Content-Type", mimeType); ("Content-Length", pretty size)]);;
  fs_call (CreateReadStream path);;
  res_op socket (Piped path).

(** ** GET /delete/ *)

Definition handleDeleteRequest (url socket : string) : M unit :=
  fs_async (Readdir (filesDir config)) (KDelete url socket).

Definition statSync_m (statSync : string → Error + Stats) (path : string) : M Stats :=
  match statSync path with inr s => mret s | inl e => throw e end.

Definition delete_callback (url socket : string) (err : option Error)
    (statSync : string → Error + Stats) : M unit :=
  match err with
  | None =>
      let path := filesDir config +:+ unescape (replace_prefix "/delete/" url) in
      log ("DEL:  " +:+ path);;
      try_catch
        (stats ← statSync_m statSync path;
         (if isFile stats then fs_call (Unlink path)
          else if isDirectory stats then fs_call (Rmdir path)
          else mret tt);;
         res_op socket (WriteHead 200 [("Content-Type", "text/html")]);;
         res_op socket End)
        (λ error,
         res_op socket (WriteHead 500 []);;
         res_op socket End;;
         handleError error;;
         SendUpdate)
  | Some e =>
      res_op socket (WriteHead 500 []);;
      res_op socket End;;
      handleError e;;
      SendUpdate
  end.

(** ** POST /upload *)

Definition handleUploadRequest (url socket : string) : M unit :=
  if bool_decide (url = "/upload") then
    res_op socket (WriteHead 200 [("Content-Type", "text/html")]);;
    res_op socket End
  else mret tt.

Definition form_fileBegin (socket file_name : string) : M unit :=
  log ("RECV: " +:+ socket +:+ tab +:+ tab +:+ file_name).

Definition form_end : M unit := SendUpdate.

Definition form_error (err : Error) : M unit := handleError err;; SendUpdate.

(** ** Set up the directory for files and start the server *)

Definition ReferenceError (name : string) : Error :=
  let msg := name +:+ " is not defined" in
  {| err_code := ""; err_message := msg; err_stack := "ReferenceError: " +:+ msg |}.

(** The callback of [fs.mkdir(config.filesDir, ...)], up to the calls
    [server.listen] and [server.on]. [ssl] is [None] when [config.useSSL]
    is unset, and otherwise says whether reading the key and certificate
    threw; the [catch] there calls [logIt], which nothing defines. *)
Definition mkdir_filesDir_callback (err : option Error) (ssl : option (option Error))
    : M unit :=
  if bool_decide (err = None) || bool_decide (err_code <$> err = Some "EEXIST") then
    match ssl with
    | None | Some None => mret tt
    | Some (Some _) => throw (ReferenceError "logIt")
    end;;
    modify (set_server Binding)
  else
    match err with Some e => handleError e | None => mret tt end.

Definition on_listening (address : string) : M unit :=
  log ("Listening on " +:+ address +:+ ":" +:+ pretty (port config));;
  modify (set_io_attached true);;
  createWatcher;;
  prepareFileList None;;
  setupSockets.

Definition on_error (err : Error) : M unit :=
  if bool_decide (err_code err = "EADDRINUSE")
  then log ("Failed to bind to config.port " +:+ pretty (port config) +:+ ".")
  else handleError err.

(** ** The event loop *)

Definition uncaughtException (err : Error) : M unit :=
  log "=============== Uncaught exception! ===============";;
  handleError err.

(** One callback run to completion; what it throws reaches the
    [uncaughtException] listener. *)
Definition turn (m : M unit) (w : World) : World :=
  match m w with
  | Ok _ w' => w'
  | Throw e w' => world_of (uncaughtException e w')
  end.

Definition watching (w : World) : bool :=
  existsb (λ c, match fs_what c with WatchDir _ => true | _ => false end) (fs_log w).

(** What the operating system and the clients can make happen. *)
Inductive Event :=
  | Elapse (ms : N)
  | MkdirFilesDirDone (err : option Error) (ssl : option (option Error))
  | ServerListening (address : string)
  | ServerError (err : Error)
  | FsWatch (event filename : string)
  | FsAnswer (k : nat) (err : option Error) (files : option (list string))
             (stats : option Stats) (statSync : string → Error + Stats)
  | Connect (socket : nat)
  | Disconnect (socket : nat)
  | REQUEST_UPDATE (socket : nat)
  | CREATE_FOLDER (socket : nat) (name : string)
  | GET_files (url socket : string)
  | GET_delete (url socket : string)
  | POST_upload (url socket : string)
  | FormFileBegin (socket file_name : string)
  | FormEnd
  | FormError (err : Error)
  | TimerFires (i : nat).

Definition continue (k : Continuation) (err : option Error) (files : option (list string))
    (stats : option Stats) (statSync : string → Error + Stats) : M unit :=
  match k with
  | KFill callback => readdir_callback callback err files statSync
  | KDelete url socket => delete_callback url socket err statSync
  | KStat path mimeType socket => stat_callback path mimeType socket err stats
  | KMkdir => mkdir_callback err
  end.

Definition step (ev : Event) (w : World) : World :=
  match ev with
  | Elapse ms => set_clock (clock w + ms) w
  | MkdirFilesDirDone err ssl =>
      if bool_decide (server w = NoServer) then turn (mkdir_filesDir_callback err ssl) w else w
  | ServerListening address =>
      if bool_decide (server w = Binding)
      then turn (on_listening address) (set_server Listening w) else w
  | ServerError err =>
      if bool_decide (server w = Binding)
      then turn (on_error err) (set_server BindFailed w) else w
  | FsWatch event filename =>
      if watching w then turn (watch_callback event filename) w else w
  | FsAnswer k err files stats statSync =>
      match pending w !! k with
      | Some c => turn (continue c err files stats statSync)
                       (set_pending (delete k (pending w)) w)
      | None => w
      end
  | Connect socket =>
      if io_attached w && negb (bool_decide (socket ∈ clients w))
      then set_clients (clients w ++ [socket]) w else w
  | Disconnect socket =>
      set_clients (List.filter (λ s, negb (bool_decide (s = socket))) (clients w)) w
  | REQUEST_UPDATE socket =>
      if sockets_ready w && bool_decide (socket ∈ clients w)
      then turn (on_REQUEST_UPDATE socket) w else w
  | CREATE_FOLDER socket name =>
      if sockets_ready w && bool_decide (socket ∈ clients w)
      then turn (on_CREATE_FOLDER socket name) w else w
  | GET_files url socket =>
      if bool_decide (server w = Listening) && starts_with "/files/" url
      then turn (handleFileRequest url socket) w else w
  | GET_delete url socket =>
      if bool_decide (server w = Listening) && starts_with "/delete/" url
      then turn (handleDeleteRequest url socket) w else w
  | POST_upload url socket =>
      if bool_decide (server w = Listening) && bool_decide (url = "/upload")
      then turn (handleUploadRequest url socket) w else w
  | FormFileBegin socket file_name =>
      if bool_decide (server w = Listening) then turn (form_fileBegin socket file_name) w else w
  | FormEnd =>
      if bool_decide (server w = Listening) then turn form_end w else w
  | FormError err =>
      if bool_decide (server w = Listening) then turn (form_error err) w else w
  | TimerFires i =>
      match List.find (λ t, bool_decide (t_id t = i)) (timers w) with
      | Some t =>
          if t_due t <=? clock w
          then turn (later (t_closure t))
                    (set_timers (List.filter (λ t, negb (bool_decide (t_id t = i))) (timers w))
                                (next_timer w) w)
          else w
      | None => w
      end
  end.

Definition steps (evs : list Event) (w : World) : World := foldl (λ w ev, step ev w) w evs.

(** The times at which [run] started a rebuild: its [fs.readdir] calls. *)
Definition rebuilds (w : World) : list N :=
  omap (λ c, match fs_then c with Some (KFill _) => Some (fs_at c) | _ => None end)
       (fs_log w).

(** Node keeps the process going while something can still call back: a
    bound server, the watcher (made with [persistent: true]), a timer, an
    [fs] request in flight. *)
Definition running (w : World) : bool :=
  bool_decide (server w = Listening) || watching w
  || negb (bool_decide (timers w = [])) || negb (bool_decide (pending w = [])).
End Server.

(** * Notions used to state the properties *)

(** ** Rebuilds *)

(** A burst of calls: each number is the time that passes before the next
    call. *)
Fixpoint burst (config : Config) (gaps : list N) (w : World) : World :=
  match gaps with
  | [] => w
  | gap :: gaps' =>
      burst config gaps' (turn (prepareFileList config None) (set_clock (clock w + gap) w))
  end.

(** [w'] is [w] but for [fileList] and [console]. *)
Definition fills (w w' : World) : Prop :=
  w' = set_console (console w') (set_fileList (fileList w') w).

(** An entry as the loop writes it. *)
Definition typed_entry (e : Entry) : Prop := e_type e = "f" ∨ e_type e = "d".

(** ** A sample directory and process *)

Definition sample_config : Config := {| filesDir := "./files/"; port := 8080 |}.

Definition ENOENT : Error :=
  {| err_code := "ENOENT";
     err_message := "ENOENT, no such file or directory";
     err_stack := "Error: ENOENT, no such file or directory" |}.

(** [./files/] holds the plain file [a.txt] of 10 bytes, the directory
    [sub] and the named pipe [pipe]. *)
Definition sample_statSync (path : string) : Error + Stats :=
  if bool_decide (path = "./files/a.txt") then inr {| st_mode := S_IFREG; st_size := 10 |}
  else if bool_decide (path = "./files/sub") then inr {| st_mode := S_IFDIR; st_size := 0 |}
  else if bool_decide (path = "./files/pipe") then inr {| st_mode := S_IFIFO; st_size := 0 |}
  else inl ENOENT.

(** None of the sample names holds a [%], so [unescape] leaves them as they
    are; the mime type plays no part. *)
Definition sample_steps : list Event → World → World :=
  steps sample_config (λ s, s) (λ _, "application/octet-stream").

(** The server has started and two clients are connected; the listing asked
    for at start-up is still awaited. *)
Definition booted : World :=
  sample_steps [MkdirFilesDirDone None None; ServerListening "0.0.0.0";
                Connect 1; Connect 2] init.

(** The same directory once [sub] has been removed. *)
Definition sample_statSync_later (path : string) : Error + Stats :=
  if bool_decide (path = "./files/sub") then inl ENOENT else sample_statSync path.

(** The start-up listing has been answered with [a.txt]. *)
Definition listed : World :=
  sample_steps [FsAnswer 0 None (Some ["a.txt"]) None sample_statSync] booted.

(** ** Logging, broadcasts and failures *)

(** The lines [handleError] logs for [err]. *)
Definition error_lines (err : Error) : list string :=
  (if bool_decide (err_message err = "") then [] else [err_message err])
  ++ (if bool_decide (err_stack err = "") then [] else [err_stack err]).

(** One [UPDATE_FILES] message for each connected socket, all with the
    serialised [fileList] of [w]. *)
Definition broadcast (w : World) : list (nat * (string * string)) :=
  List.map (λ s, (s, ("UPDATE_FILES", JSON_stringify (fileList w)))) (clients w).

(** The three places where a delete or an upload fails. *)
Inductive FailedMutation (config : Config) (unescape : string → string)
    : string → M unit → Prop :=
  | delete_stat_throws url socket statSync error :
      statSync (filesDir config +:+ unescape (replace_prefix "/delete/" url)) = inl error →
      FailedMutation config unescape socket
        (delete_callback config unescape url socket None statSync)
  | delete_listing_fails url socket statSync err :
      FailedMutation config unescape socket
        (delete_callback config unescape url socket (Some err) statSync)
  | upload_fails socket err :
      FailedMutation config unescape socket (form_error err).

(** ** Decimal numbers *)

(** The two digits of a number below 100. *)
Definition two_digits (d : N) : string :=
  String (pretty_N_char (d `div` 10)) (String (pretty_N_char (d `mod` 10)) "").

(** [num / den] rounded to the nearest hundredth, halves up, in hundredths. *)
Definition hundredths (num den : N) : N := (2 * 100 * num + den) `div` (2 * den).

(** ** Paths *)

(** How the operating system reads a path (symbolic links apart): the names
    between slashes from left to right; an empty name and [.] stand for the
    directory reached so far, [..] for the one above it. The state is the
    name being read and the names entered so far, the last one first. *)
Definition enter (name : string) (dirs : list string) : list string :=
  if bool_decide (name = "") || bool_decide (name = ".") then dirs
  else if bool_decide (name = "..") then tail dirs
  else name :: dirs.

Fixpoint walk (path : string) (st : string * list string) : string * list string :=
  match path with
  | EmptyString => st
  | String c path' =>
      if bool_decide (c = "/"%char) then walk path' ("", enter st.1 st.2)
      else walk path' (st.1 +:+ String c "", st.2)
  end.

Definition resolve (path : string) : list string :=
  let st := walk path ("", []) in rev (enter st.1 st.2).

(** [path] names [dir] or something below it. *)
Definition within (dir path : string) : Prop := resolve dir `prefix_of` resolve path.

(** ** States and events *)

(** Nothing was set up and nothing can call back. *)
Definition idle (w : World) : Prop :=
  server w = BindFailed ∧ io_attached w = false ∧ sockets_ready w = false
  ∧ clients w = [] ∧ timers w = [] ∧ pending w = [] ∧ fs_log w = []
  ∧ emitted w = [] ∧ fileList w = ∅ ∧ last w = None.

(** Events that neither start a rebuild nor deliver a listing to one. *)
Definition quiet (ev : Event) (w : World) : bool :=
  match ev with
  | FsWatch _ _ | ServerListening _ | TimerFires _ => false
  | FsAnswer k _ _ _ _ =>
      match pending w !! k with Some (KFill _) => false | _ => true end
  | _ => true
  end.

Fixpoint quiet_trace (step : Event → World → World) (evs : list Event) (w : World) : bool :=
  match evs with
  | [] => true
  | ev :: evs' => quiet ev w && quiet_trace step evs' (step ev w)
  end.

(** The handler [m] keeps the property [I] of the state, whether it returns
    or throws. *)
Definition preserves (I : World → Prop) {A} (m : M A) : Prop :=
  ∀ w, I w → I (world_of (m w)).

(** While the listing is awaited: [fileList] is empty and whatever has
    been sent since [base] carries the empty object. *)
Definition awaiting (base : list (nat * (string * string))) (w : World) : Prop :=
  fileList w = ∅
  ∧ ∃ pushes, emitted w = base ++ pushes
              ∧ Forall (λ m, m.2 = ("UPDATE_FILES", "{}")) pushes.

(** ** The payload of UPDATE_FILES *)

(** The member of the payload for the property [i] of [fileList]. *)
Definition member (kv : nat * Entry) : string * Json :=
  (pretty (N.of_nat kv.1),
   JObject [("name", JString (e_name kv.2)); ("type", JString (e_type kv.2));
            ("size", JNumber (e_size kv.2))]).

(** The payload is the serialisation of an object [o] whose values were
    written by the loop of the rebuild. *)
Definition object_payload (m : nat * (string * string)) : Prop :=
  ∃ o : FileList,
    m.2 = ("UPDATE_FILES", stringify (JObject (List.map member (own_properties o))))
    ∧ (∀ i e, (i, e) ∈ own_properties o ↔ o !! i = Some e)
    ∧ (∀ i e, o !! i = Some e → e_type e = "f" ∨ e_type e = "d")
    ∧ Sorted (λ a b, a.1 ≤ b.1)%nat (own_properties o).

Definition payloads_ok (w : World) : Prop :=
  map_Forall (λ _, typed_entry) (fileList w) ∧ Forall object_payload (emitted w).

(** The payload of [m] is the serialisation of the object [o], which is a
    JSON object with one member for each property of [o], in ascending
    order of the index, the values written by the loop of the rebuild. *)
Definition payload_of (o : FileList) (m : nat * (string * string)) : Prop :=
  m.2 = ("UPDATE_FILES", JSON_stringify o)
  ∧ JSON_stringify o = stringify (JObject (List.map member (own_properties o)))
  ∧ (∀ i e, (i, e) ∈ own_properties o ↔ o !! i = Some e)
  ∧ (∀ i e, o !! i = Some e → e_type e = "f" ∨ e_type e = "d")
  ∧ Sorted (λ a b, a.1 ≤ b.1)%nat (own_properties o).

(** Whatever has been sent since [base] carries the [fileList] of [w]. *)
Definition pushed (base : list (nat * (string * string))) (w : World) : Prop :=
  ∃ pushes, emitted w = base ++ pushes
            ∧ Forall (λ m, m.2 = ("UPDATE_FILES", JSON_stringify (fileList w))) pushes.

(** The [n]-th message sent in the course of [evs] is [m]; it was sent by
    the callback of the event [ev], and its payload is the serialisation of
    [fileList] as that callback left it. *)
Definition sent_in_step (config : Config) (unescape mime_lookup : string → string)
    (evs : list Event) (n : nat) (m : nat * (string * string)) : Prop :=
  ∃ evs1 ev evs2,
    evs = evs1 ++ ev :: evs2
    ∧ let w := steps config unescape mime_lookup evs1 init in
      let w' := step config unescape mime_lookup ev w in
      (length (emitted w) ≤ n < length (emitted w'))%nat
      ∧ emitted w' !! n = Some m
      ∧ payload_of (fileList w') m.

(** * Notions for the further properties *)

(** ** Calls of a debounced function *)

(** The timer [i], if it is still pending, fires: the clock has reached
    its time, the timer leaves the list and [later] runs, as in [step]. *)
Definition fire (config : Config) (i : nat) (w : World) : World :=
  match List.find (λ t, bool_decide (t_id t = i)) (timers w) with
  | Some t =>
      turn (later config (t_closure t))
           (set_timers (List.filter (λ t, negb (bool_decide (t_id t = i))) (timers w))
                       (next_timer w) (set_clock (N.max (clock w) (t_due t)) w))
  | None => w
  end.

(** The timer [a] is due no later than [b]. *)
Definition earlier (a b : Timer) : Prop := t_due a ≤ t_due b.

Global Instance earlier_dec a b : Decision (earlier a b) :=
  decide (t_due a ≤ t_due b).

(** The timers of [w] that are due by the time [now], the earliest first. *)
Definition due_timers (now : N) (w : World) : list Timer :=
  merge_sort earlier (List.filter (λ t, t_due t <=? now) (timers w)).

(** Time passes until [now]: the timers that are due by then fire, each at
    its time. (What [later] runs sets no timer, so that none comes to be
    due on the way.) *)
Definition fire_due (config : Config) (now : N) (w : World) : World :=
  set_clock now (foldl (λ w t, fire config (t_id t) w) w (due_timers now w)).

(** Calls of the function that [debounce] returned as the closure [c]: each
    number is the time that passes before the next call, in which the
    timers that come to be due fire. *)
Fixpoint calls (config : Config) (c : nat) (gaps : list N) (w : World) : World :=
  match gaps with
  | [] => w
  | gap :: gaps' =>
      calls config c gaps' (turn (debounced config c) (fire_due config (clock w + gap) w))
  end.

(** The closure [c] of [w] wraps [func] and has the timer [timeout] set. *)
Definition closure_is (w : World) (c : nat) (func : option JsFun) (wait : N)
    (immediate : bool) (timeout : option nat) : Prop :=
  closures w !! c
  = Some {| d_func := func; d_wait := wait; d_immediate := immediate; d_timeout := timeout |}.

(** ** Timers *)

(** No timer is pending, and every closure made by [debounce] wraps
    [undefined] and has no timer. *)
Definition no_timer (w : World) : Prop :=
  timers w = [] ∧ Forall (λ d, d_func d = None ∧ d_timeout d = None) (closures w).

(** ** The type carried through the loop of the rebuild *)

(** What a turn of the loop over [name] leaves in [type]. *)
Definition carry_step (statSync : string → Error + Stats) (dir : string)
    (type : option string) (name : string) : option string :=
  match statSync (dir +:+ name) with
  | inr stats =>
      if isDirectory stats then Some "d" else if isFile stats then Some "f" else type
  | inl _ => type
  end.

(** The [type] after the turns over [names], from [undefined]: that of the
    last of them which [statSync] reports as a plain file or a directory. *)
Definition carried (statSync : string → Error + Stats) (dir : string)
    (names : list string) : option string :=
  foldl (carry_step statSync dir) None names.

(** [undefined], or one of the two types the loop assigns. *)
Definition type_ok (type : option string) : Prop :=
  type = None ∨ type = Some "f" ∨ type = Some "d".

(** * The rest of [server.js] *)

(** ** Helper function for log timestamps *)

(** What [getTimestamp] reads off [new Date()], in local time. *)
Record Date := {
  getDate : N; getMonth : N; getFullYear : N;
  getHours : N; getMinutes : N; getSeconds : N
}.

(** [if (n < 10) n = "0" + n], and then the value put in a string. *)
Definition zero_pad (n : N) : string :=
  if n <? 10 then "0" +:+ pretty n else pretty n.

Definition getTimestamp (currentDate : Date) : string :=
  let day := getDate currentDate in
  let month := getMonth currentDate + 1 in
  let year := getFullYear currentDate in
  let hours := zero_pad (getHours currentDate) in
  let minutes := zero_pad (getMinutes currentDate) in
  let seconds := zero_pad (getSeconds currentDate) in
  pretty month +:+ "/" +:+ pretty day +:+ "/" +:+ pretty year +:+ " "
  +:+ hours +:+ ":" +:+ minutes +:+ ":" +:+ seconds +:+ " ".

(** What [log(msg)] hands to [console.log] at the time [currentDate]. *)
Definition log_line (currentDate : Date) (msg : string) : string :=
  getTimestamp currentDate +:+ msg.

(** [c] does not occur in [s]. *)
Fixpoint free_of (c : ascii) (s : string) : Prop :=
  match s with
  | EmptyString => True
  | String a s' => a ≠ c ∧ free_of c s'
  end.

(** ** Where an upload is stored *)


(** ** Resources and the cache *)

(** Values handed to the response: [undefined], a string, a number, or an
    object. *)
Inductive JsVal := Undefined | Str (s : string) | Num (n : N) | Obj.

(** Calls on the [res] object of a request, with their arguments. *)
Inductive ResCall :=
  | RWriteHead (status : N) (headers : list (string * JsVal))
  | REnd (body : JsVal).

(** An own property of [cache]: the page under [HTML], a string; or the
    object made for a resource, whose fields are set one after the other. *)
Inductive CacheValue :=
  | CString (s : string)
  | CResource (data : option string) (size : option N) (mime : option string).

Abbreviation Cache := (gmap string CacheValue).

(** What [cache[name]] finds: nothing, an own property, or a property of
    [Object.prototype]. *)
Inductive Cached := Missing | Own (v : CacheValue) | Inherited.

(** What the router or a resource request did with a request. *)
Inductive Routed :=
  | Answered (calls : list ResCall)        (* the response was written and ended *)
  | Reading (resourceName path : string)   (* [fs.readFile(path, ...)] was called *)
  | Engine                                 (* handed to a handler of files, deletes, uploads *)
  | Unanswered.                            (* nothing was done with the response *)

Definition resDir : string := "./res/".

(** [undefined >= 0] and [undefined < kib] are false, like every comparison
    of [convertToSI] on [undefined]: the last branch returns
    [undefined + ' B']. *)
Definition convertToSI_of (size : option N) : string :=
  match size with Some bytes => convertToSI bytes | None => "undefined B" end.

Definition Str_of (v : option string) : JsVal :=
  match v with Some s => Str s | None => Undefined end.

Definition Num_of (v : option N) : JsVal :=
  match v with Some n => Num n | None => Undefined end.

(** [s.toUpperCase()] on ASCII. *)
Definition upper_char (c : ascii) : ascii :=
  let n := N_of_ascii c in
  if (97 <=? n) && (n <=? 122) then ascii_of_N (n - 32) else c.

Fixpoint toUpperCase (s : string) : string :=
  match s with
  | EmptyString => EmptyString
  | String c s' => String (upper_char c) (toUpperCase s')
  end.

Section Resources.
Context (config : Config) (unescape : string → string) (mime_lookup : string → string).
(** The names of the properties of [Object.prototype], which depend on the
    engine. *)
Context (inherited : string → bool).

Definition cache_get (cache : Cache) (name : string) : Cached :=
  match cache !! name with
  | Some v => Own v
  | None => if inherited name then Inherited else Missing
  end.

(** [cache[resourceName].size], [.mime] and [.data]: reading a property of
    [undefined] throws; a string and the properties of [Object.prototype]
    have none of the three. *)
Definition cache_field {A} (cache : Cache) (resourceName prop : string)
    (field : option string → option N → option string → option A) : M (option A) :=
  match cache_get cache resourceName with
  | Missing => throw (TypeError_undefined prop)
  | Own (CResource data size mime) => mret (field data size mime)
  | Own (CString _) | Inherited => mret None
  end.

(** The inner function [serve] of [handleResourceRequest]. *)
Definition serve (cache : Cache) (resourceName socket : string) : M (list ResCall) :=
  size ← cache_field cache resourceName "size" (λ _ size _, size);
  log ("SEND: " +:+ socket +:+ tab +:+ tab +:+ resourceName
       +:+ " (" +:+ convertToSI_of size +:+ ")");;
  mime ← cache_field cache resourceName "mime" (λ _ _ mime, mime);
  size ← cache_field cache resourceName "size" (λ _ size _, size);
  data ← cache_field cache resourceName "data" (λ data _ _, data);
  mret [RWriteHead 200 [("Content-Type", Str_of mime); ("Content-Length", Num_of size);
                        ("Cache-Control", Str "max-age=3600, public")];
        REnd (Str_of data)].

(** Serve resources: [handleResourceRequest] up to its call of
    [fs.readFile]. *)
Definition handleResourceRequest (cache : Cache) (url socket : string) : M Routed :=
  let resourceName := unescape (substring_from (String.length resDir - 1) url) in
  match cache_get cache resourceName with
  | Missing => mret (Reading resourceName (resDir +:+ resourceName))
  | _ => calls ← serve cache resourceName socket; mret (Answered calls)
  end.

(** The cache when the callback of [fs.readFile] is over, be it by a
    return or by the throw of [fs.statSync]: the object is stored and its
    [data] set before the size is asked for. *)
Definition readFile_cache (cache : Cache) (resourceName path : string)
    (err : option Error) (data : string) (statSync : string → Error + Stats) : Cache :=
  match err with
  | Some _ => cache
  | None =>
      match statSync (unescape path) with
      | inr stats =>
          <[resourceName := CResource (Some data) (Some (st_size stats))
                                      (Some (mime_lookup (unescape path)))]> cache
      | inl _ => <[resourceName := CResource (Some data) None None]> cache
      end
  end.

(** The callback of [fs.readFile]. *)
Definition readFile_callback (cache : Cache) (resourceName path socket : string)
    (err : option Error) (data : string) (statSync : string → Error + Stats)
    : M (list ResCall) :=
  match err with
  | None =>
      match statSync (unescape path) with
      | inr _ => serve (readFile_cache cache resourceName path None data statSync)
                       resourceName socket
      | inl e => throw e
      end
  | Some e =>
      handleError e;;
      mret [RWriteHead 404 []; REnd Undefined]
  end.

(** [res.end(cache.HTML)] *)
Definition cache_HTML (cache : Cache) : JsVal :=
  match cache !! "HTML" with
  | Some (CString s) => Str s
  | Some (CResource _ _ _) => Obj
  | None => Undefined
  end.

(** GET/POST handler *)
Definition onRequest (cache : Cache) (method url remoteAddress : string) (remotePort : N)
    : M Routed :=
  let method := toUpperCase method in
  let socket := remoteAddress +:+ ":" +:+ pretty remotePort in
  log ("REQ:  " +:+ socket +:+ tab +:+ method +:+ tab +:+ url);;
  if bool_decide (method = "GET") then
    if starts_with "/res/" url then handleResourceRequest cache url socket
    else if starts_with "/files/" url then
      handleFileRequest config unescape mime_lookup url socket;; mret Engine
    else if starts_with "/delete/" url then
      handleDeleteRequest config url socket;; mret Engine
    else if bool_decide (url = "/") then
      mret (Answered [RWriteHead 200 [("content-type", Str "text/html");
                                      ("Cache-Control", Str "max-age=3600, public")];
                      REnd (cache_HTML cache)])
    else mret (Answered [RWriteHead 404 []; REnd Undefined])
  else if bool_decide (method = "POST") && bool_decide (url = "/upload") then
    handleUploadRequest url socket;; mret Engine
  else mret Unanswered.
End Resources.

(** ** The cache over time *)

(** An answer of [fs.readFile] to the request for the resource [ra_name],
    and what [fs.statSync] does when its callback runs. The path is that of
    the request, [resDir + resourceName]. *)
Record ReadAnswer := {
  ra_name : string;
  ra_err : option Error;
  ra_data : string;
  ra_statSync : string → Error + Stats
}.

(** Nothing but the callbacks of [fs.readFile] writes to [cache] once the
    page is stored: the cache after the callbacks of [answers], in the
    order in which they ran. *)
Definition reads (unescape mime_lookup : string → string) (answers : list ReadAnswer)
    (cache : Cache) : Cache :=
  foldl (λ cache a, readFile_cache unescape mime_lookup cache (ra_name a)
                                   (resDir +:+ ra_name a) (ra_err a) (ra_data a)
                                   (ra_statSync a))
        cache answers.

(** The last of [answers] that brought the bytes of [name]. *)
Fixpoint latest_read (name : string) (answers : list ReadAnswer) : option ReadAnswer :=
  match answers with
  | [] => None
  | a :: rest =>
      match latest_read name rest with
      | Some b => Some b
      | None =>
          if bool_decide (ra_name a = name)
          then match ra_err a with None => Some a | Some _ => None end
          else None
      end
  end.

(** ** The listener of "fileBegin" *)


(** The directory of the resources holds [style.css], of 2048 bytes. *)
Definition sample_res_statSync (path : string) : Error + Stats :=
  if bool_decide (path = "./res/style.css") then inr {| st_mode := S_IFREG; st_size := 2048 |}
  else inl ENOENT.

(** * Properties *)

Arguments log _ /.
Arguments get {A} _ _ /.
Arguments modify _ _ /.
Arguments throw {A} _ _ /.
Arguments try_catch {A} _ _ _ /.

(** Unfolds the monad so that a handler applied to a state reduces. *)
Ltac unfold_M :=
  unfold mbind, M_bind, mret, M_ret, get, modify, throw, try_catch in *.

(** ** Calls of [prepareFileList] *)

Section Rebuild.
Context (config : Config).

Lemma rebuilds_snoc (w : World) (t : N) (c : FsCall) (k : option Callback) :
  omap (λ c, match fs_then c with Some (KFill _) => Some (fs_at c) | _ => None end)
       (fs_log w ++ [{| fs_at := t; fs_what := c; fs_then := Some (KFill k) |}])
  = rebuilds w ++ [t].
Proof. unfold rebuilds. by rewrite omap_app. Qed.

(** A call runs [run] before it returns and leaves no timer behind. *)
Lemma prepareFileList_runs_at_once callback w :
  ∃ w', prepareFileList config callback w = Ok tt w'
        ∧ rebuilds w' = rebuilds w ++ [clock w]
        ∧ timers w' = timers w
        ∧ clock w' = clock w
        ∧ fileList w' = ∅
        ∧ last w' = Some (clock w)
        ∧ pending w' = pending w ++ [KFill callback]
        ∧ emitted w' = emitted w
        ∧ clients w' = clients w.
Proof.
  eexists. split; [reflexivity|].
  simpl. split; [apply rebuilds_snoc|]. done.
Qed.

Lemma burst_rebuilds gaps : ∀ w,
  length (rebuilds (burst config gaps w)) = (length (rebuilds w) + length gaps)%nat
  ∧ timers (burst config gaps w) = timers w.
Proof.
  induction gaps as [|gap gaps IH]; intros w; simpl.
  - split; [lia|done].
  - destruct (prepareFileList_runs_at_once None (set_clock (clock w + gap) w))
      as (w' & Hrun & Hre & Htm & _).
    unfold turn. rewrite Hrun.
    destruct (IH w') as [Hlen Htimers]. rewrite Hlen, Htimers, Hre, Htm.
    rewrite length_app. simpl. split; [|done].
    unfold rebuilds. simpl. lia.
Qed.
End Rebuild.

(** C1. Two calls of [prepareFileList] 50 ms apart, with [readInterval] at
    200 ms: the code rebuilds twice, once at the instant of each call, and
    sets no timer; a trailing-edge debounce would rebuild once, 200 ms after
    the second call. *)
Theorem prepareFileList_two_calls_rebuild_twice (config : Config) :
  let w := burst config [0; 50] init in
  rebuilds w = [0; 50] ∧ timers w = [] ∧ pending w = [KFill None; KFill None]
  ∧ readInterval = 200.
Proof. done. Qed.

(** ** The loop of the rebuild *)

Lemma fills_refl w : fills w w.
Proof. by destruct w. Qed.

Lemma fills_trans w1 w2 w3 : fills w1 w2 → fills w2 w3 → fills w1 w3.
Proof. unfold fills. intros H12 H23. rewrite H23, H12. by destruct w1. Qed.

Lemma fills_set_fileList w v : fills w (set_fileList v w).
Proof. by destruct w. Qed.

Lemma fills_set_console w v : fills w (set_console v w).
Proof. by destruct w. Qed.

Section Fill.
Context (config : Config) (statSync : string → Error + Stats).

Lemma handleError_ok err w :
  ∃ w', handleError err w = Ok tt w' ∧ fills w w' ∧ fileList w' = fileList w.
Proof.
  unfold handleError. unfold_M.
  repeat case_bool_decide; simpl; eexists; (split; [reflexivity|]);
    (split; [|done]); by destruct w.
Qed.

(** What one turn of the loop stores under its index, by what [statSync]
    answers; for a file that is neither plain nor a directory it depends
    on the [type] left by the turn before. *)
Lemma fill_step_spec i name type w :
  ∃ type' w', fill_step config statSync i name type w = Ok type' w'
    ∧ fills w w'
    ∧ (∀ j, j ≠ i → fileList w' !! j = fileList w !! j)
    ∧ (map_Forall (λ _, typed_entry) (fileList w) →
       map_Forall (λ _, typed_entry) (fileList w'))
    ∧ match statSync (filesDir config +:+ name) with
      | inl _ => fileList w' !! i = fileList w !! i
      | inr stats =>
          if isDirectory stats then
            fileList w' !! i
            = Some {| e_name := name; e_type := "d"; e_size := st_size stats |}
          else if isFile stats then
            fileList w' !! i
            = Some {| e_name := name; e_type := "f"; e_size := st_size stats |}
          else
            match type with
            | None => fileList w' !! i = fileList w !! i
            | Some t =>
                fileList w' !! i
                = Some {| e_name := name; e_type := t; e_size := st_size stats |}
                ∨ fileList w' !! i = fileList w !! i
            end
      end.
Proof.
  unfold fill_step.
  destruct (statSync (filesDir config +:+ name)) as [e|stats].
  - destruct (handleError_ok e w) as (w' & Hw' & Hf & Hl).
    unfold_M. rewrite Hw'. exists type, w'. rewrite Hl. done.
  - assert (Hins : ∀ t, t = "f" ∨ t = "d" →
      map_Forall (λ _, typed_entry) (fileList w) →
      map_Forall (λ _, typed_entry)
        (<[i := {| e_name := name; e_type := t; e_size := st_size stats |}]> (fileList w))).
    { intros t Ht Hall. by apply map_Forall_insert_2. }
    destruct (isDirectory stats) eqn:Hd, (isFile stats) eqn:Hf; simpl; unfold_M; simpl.
    + eexists _, _. split; [reflexivity|]. simpl.
      split; [apply fills_set_fileList|].
      split; [intros j Hj; by rewrite lookup_insert_ne|].
      split; [apply Hins; by right|]. by rewrite lookup_insert_eq.
    + eexists _, _. split; [reflexivity|]. simpl.
      split; [apply fills_set_fileList|].
      split; [intros j Hj; by rewrite lookup_insert_ne|].
      split; [apply Hins; by right|]. by rewrite lookup_insert_eq.
    + eexists _, _. split; [reflexivity|]. simpl.
      split; [apply fills_set_fileList|].
      split; [intros j Hj; by rewrite lookup_insert_ne|].
      split; [apply Hins; by left|]. by rewrite lookup_insert_eq.
    + destruct type as [t|]; [|eexists _, _; split; [reflexivity|];
        split; [apply fills_refl|done]].
      destruct (bool_decide (t = "f") || bool_decide (t = "d")) eqn:Ht; simpl.
      * eexists _, _. split; [reflexivity|]. simpl.
        split; [apply fills_set_fileList|].
        split; [intros j Hj; by rewrite lookup_insert_ne|].
        split; [|left; by rewrite lookup_insert_eq].
        apply Hins. apply orb_true_iff in Ht as [Ht|Ht];
          apply bool_decide_eq_true in Ht; auto.
      * eexists _, _. split; [reflexivity|].
        split; [apply fills_refl|]. split; [done|]. split; [done|]. by right.
Qed.

(** What the whole loop leaves in [fileList]: it never throws, touches
    only the indices of the listing, and stores every entry that
    [statSync] reports as a plain file or a directory under its index in
    the listing, with the reported size; an entry whose [statSync] throws
    leaves its index as it was. *)
Lemma fill_loop_spec files : ∀ i type w,
  ∃ w', fill_loop config statSync i files type w = Ok tt w'
    ∧ fills w w'
    ∧ (∀ j, (j < i ∨ i + length files ≤ j)%nat → fileList w' !! j = fileList w !! j)
    ∧ (map_Forall (λ _, typed_entry) (fileList w) →
       map_Forall (λ _, typed_entry) (fileList w'))
    ∧ (∀ k name, files !! k = Some name →
       match statSync (filesDir config +:+ name) with
       | inl _ => fileList w' !! (i + k)%nat = fileList w !! (i + k)%nat
       | inr stats =>
           if isDirectory stats then
             fileList w' !! (i + k)%nat
             = Some {| e_name := name; e_type := "d"; e_size := st_size stats |}
           else if isFile stats then
             fileList w' !! (i + k)%nat
             = Some {| e_name := name; e_type := "f"; e_size := st_size stats |}
           else True
       end).
Proof.
  induction files as [|name files IH]; intros i type w; simpl.
  - exists w. split; [done|]. split; [apply fills_refl|]. done.
  - destruct (fill_step_spec i name type w) as (type' & w1 & Hstep & Hf1 & Hne & Hty1 & Hat).
    destruct (IH (S i) type' w1) as (w' & Hloop & Hf2 & Hout & Hty2 & Hin).
    exists w'. unfold_M. rewrite Hstep. split; [exact Hloop|].
    split; [by eapply fills_trans|].
    split; [|split; [auto|]].
    + intros j Hj. rewrite Hout by lia. apply Hne. lia.
    + intros [|k] name' Hk; simpl in Hk.
      * injection Hk as <-. rewrite Nat.add_0_r, Hout by lia.
        destruct (statSync (filesDir config +:+ name)) as [e|stats]; [done|].
        destruct (isDirectory stats); [done|]. by destruct (isFile stats).
      * specialize (Hin k name' Hk).
        replace (i + S k)%nat with (S i + k)%nat by lia.
        destruct (statSync (filesDir config +:+ name')) as [e|stats]; [|done].
        rewrite Hin. apply Hne. lia.
Qed.
End Fill.

(** ** The rebuild on the sample directory *)

(** Scenario A of the specification. *)
Example rebuild_scenario_A :
  fileList (sample_steps [FsAnswer 0 None (Some ["a.txt"; "sub"]) None sample_statSync] booted)
  = <[1%nat := {| e_name := "sub"; e_type := "d"; e_size := 0 |}]>
      (<[0%nat := {| e_name := "a.txt"; e_type := "f"; e_size := 10 |}]> ∅).
Proof. vm_compute. reflexivity. Qed.

(** C6. The listing is [a.txt] (a plain file of 10 bytes) followed by [pipe]
    (a named pipe: its stat succeeds and it is neither a plain file nor a
    directory). The rebuild stores [pipe] as a plain file, because the
    variable [type] still holds the "f" of the turn before; it should have
    been skipped. *)
Theorem rebuild_keeps_fifo_after_file :
  let w := sample_steps [FsAnswer 0 None (Some ["a.txt"; "pipe"]) None sample_statSync] booted in
  sample_statSync "./files/pipe" = inr {| st_mode := S_IFIFO; st_size := 0 |}
  ∧ isFile {| st_mode := S_IFIFO; st_size := 0 |} = false
  ∧ isDirectory {| st_mode := S_IFIFO; st_size := 0 |} = false
  ∧ fileList w !! 1%nat = Some {| e_name := "pipe"; e_type := "f"; e_size := 0 |}
  ∧ fileList w !! 0%nat = Some {| e_name := "a.txt"; e_type := "f"; e_size := 10 |}.
Proof. vm_compute. done. Qed.

(** The same pipe listed first is skipped: nothing has set [type] yet. *)
Example rebuild_skips_fifo_first :
  let w := sample_steps [FsAnswer 0 None (Some ["pipe"; "a.txt"]) None sample_statSync] booted in
  fileList w !! 0%nat = None
  ∧ fileList w !! 1%nat = Some {| e_name := "a.txt"; e_type := "f"; e_size := 10 |}.
Proof. vm_compute. done. Qed.

(** ** What the helpers do to the state *)

Lemma handleError_eq err w :
  handleError err w = Ok tt (set_console (console w ++ error_lines err) w).
Proof.
  unfold handleError, error_lines. unfold_M.
  repeat case_bool_decide; destruct w; simpl; rewrite ?app_nil_r, <-?app_assoc; done.
Qed.

Lemma SendUpdate_eq w :
  SendUpdate w = Ok tt (set_emitted (emitted w ++ broadcast w) w).
Proof. reflexivity. Qed.

(** ** GET /files/ of a path whose stat fails *)

(** C9. When [fs.stat] fails, the callback answers 500, ends the response,
    logs the error and broadcasts, and then goes on: reading [stats.size]
    of the absent [stats] throws a [TypeError]. The 200 head, the read
    stream and the pipe after it are never reached. *)
Theorem stat_callback_error_falls_through
    (path mimeType socket : string) (err : Error) (w : World) :
  ∃ w', stat_callback path mimeType socket (Some err) None w
        = Throw (TypeError_undefined "size") w'
      ∧ http w' = http w ++ [(socket, WriteHead 500 []); (socket, End)]
      ∧ emitted w' = emitted w ++ broadcast w
      ∧ console w' = console w ++ error_lines err
      ∧ fs_log w' = fs_log w.
Proof.
  eexists. unfold stat_callback, res_op. unfold_M.
  rewrite handleError_eq. simpl. split; [reflexivity|]. simpl.
  rewrite <-app_assoc. done.
Qed.

(** With a successful stat the same callback runs to its end. *)
Lemma stat_callback_success (path mimeType socket : string) (stats : Stats) (w : World) :
  ∃ w', stat_callback path mimeType socket None (Some stats) w = Ok tt w'
      ∧ http w' = http w ++ [(socket, WriteHead 200 [("Content-Type", mimeType);
                                                     ("Content-Length", pretty (st_size stats))]);
                             (socket, Piped path)]
      ∧ emitted w' = emitted w.
Proof.
  eexists. unfold stat_callback, res_op, fs_call. unfold_M. simpl.
  split; [reflexivity|]. simpl. rewrite <-app_assoc. done.
Qed.

(** ** REQUEST_UPDATE *)

(** C3, the claim as stated fails: with sockets 1 and 2 connected, a
    [REQUEST_UPDATE] from socket 1 also pushes to socket 2. *)
Lemma REQUEST_UPDATE_reaches_other_socket :
  clients booted = [1%nat; 2%nat]
  ∧ emitted booted = []
  ∧ emitted (sample_steps [REQUEST_UPDATE 1] booted)
    = [(1%nat, ("UPDATE_FILES", "{}")); (2%nat, ("UPDATE_FILES", "{}"))].
Proof. vm_compute. done. Qed.

(** C3, amended. A [REQUEST_UPDATE] from a connected socket sends one
    [UPDATE_FILES] message, carrying the serialised current [fileList], to
    every connected socket, the sender among them: the handler calls
    [SendUpdate], which emits on [io.sockets]. Nothing else changes. *)
Theorem REQUEST_UPDATE_broadcasts (config : Config) (unescape mime_lookup : string → string)
    (socket : nat) (w : World) :
  sockets_ready w = true →
  socket ∈ clients w →
  step config unescape mime_lookup (REQUEST_UPDATE socket) w
  = set_emitted (emitted w ++ List.map (λ s, (s, ("UPDATE_FILES", JSON_stringify (fileList w))))
                                       (clients w)) w.
Proof.
  intros Hready Hin. simpl. rewrite Hready. simpl.
  by rewrite bool_decide_eq_true_2.
Qed.

Lemma REQUEST_UPDATE_broadcasts_witness :
  sockets_ready booted = true
  ∧ 1%nat ∈ clients booted
  ∧ step sample_config (λ s, s) (λ _, "") (REQUEST_UPDATE 1) booted
    = set_emitted (emitted booted
                   ++ List.map (λ s, (s, ("UPDATE_FILES", JSON_stringify (fileList booted))))
                               (clients booted)) booted.
Proof.
  split; [reflexivity|]. split; [vm_compute; apply list_elem_of_here|].
  apply REQUEST_UPDATE_broadcasts; [reflexivity|vm_compute; apply list_elem_of_here].
Defined.

(** ** Failed deletes and uploads *)

(** C4, the claim as stated fails: a delete of the missing [nope] answers
    500 and broadcasts once, but starts no rebuild: no [fs.readdir] of [run]
    is issued, [last] and [fileList] stay as they were, and nothing is left
    pending or timed. *)
Lemma delete_of_missing_path_does_not_rebuild :
  let w := sample_steps [GET_delete "/delete/nope" "10.0.0.7:5000";
                         FsAnswer 0 None (Some ["a.txt"]) None sample_statSync] listed in
  sample_statSync "./files/nope" = inl ENOENT
  ∧ rebuilds w = rebuilds listed
  ∧ last w = last listed
  ∧ fileList w = fileList listed
  ∧ pending w = []
  ∧ timers w = []
  ∧ emitted w = emitted listed ++ broadcast listed
  ∧ http w = [("10.0.0.7:5000", WriteHead 500 []); ("10.0.0.7:5000", End)].
Proof. vm_compute. done. Qed.

Section Failures.
Context (config : Config) (unescape : string → string).

(** C4, amended. A delete whose [statSync] throws (the path does not
    exist), a delete whose listing fails, and an upload that reports an
    error each call [SendUpdate] once: every connected socket gets one
    [UPDATE_FILES] message with the [fileList] as it is. No rebuild is
    started and the call does not go through [prepareFileList] or
    [debounce]: [fileList], [last], the pending [fs] calls, the issued
    ones and the timers stay as they were. *)
Theorem failed_mutation_broadcasts_without_rebuild (socket : string) (m : M unit)
    (w : World) :
  FailedMutation config unescape socket m →
  ∃ w', m w = Ok tt w'
      ∧ emitted w' = emitted w ++ broadcast w
      ∧ fileList w' = fileList w
      ∧ last w' = last w
      ∧ rebuilds w' = rebuilds w
      ∧ fs_log w' = fs_log w
      ∧ pending w' = pending w
      ∧ timers w' = timers w
      ∧ closures w' = closures w.
Proof.
  intros [url s statSync error Hstat|url s statSync err|s err].
  - eexists. unfold delete_callback, statSync_m, res_op. unfold_M. simpl.
    rewrite Hstat. simpl. rewrite handleError_eq. simpl. done.
  - eexists. unfold delete_callback, res_op. unfold_M. simpl.
    rewrite handleError_eq. simpl. done.
  - eexists. unfold form_error. unfold_M.
    rewrite handleError_eq. simpl. done.
Qed.
End Failures.

Lemma failed_mutation_broadcasts_without_rebuild_witness :
  sample_statSync (filesDir sample_config +:+ replace_prefix "/delete/" "/delete/nope")
  = inl ENOENT
  ∧ ∃ w', delete_callback sample_config (λ s, s) "/delete/nope" "10.0.0.7:5000" None
                          sample_statSync listed = Ok tt w'
        ∧ emitted w' = emitted listed ++ broadcast listed
        ∧ fileList w' = fileList listed
        ∧ last w' = last listed
        ∧ rebuilds w' = rebuilds listed
        ∧ fs_log w' = fs_log listed
        ∧ pending w' = pending listed
        ∧ timers w' = timers listed
        ∧ closures w' = closures listed.
Proof.
  split; [reflexivity|].
  apply (failed_mutation_broadcasts_without_rebuild sample_config (λ s, s) "10.0.0.7:5000").
  apply (delete_stat_throws sample_config (λ s, s) "/delete/nope" "10.0.0.7:5000"
                            sample_statSync ENOENT).
  reflexivity.
Defined.

(** ** Decimal rendering *)

Lemma string_app_cons (c : ascii) (a b : string) : String c a +:+ b = String c (a +:+ b).
Proof. reflexivity. Qed.

Lemma string_app_nil (b : string) : "" +:+ b = b.
Proof. reflexivity. Qed.

Lemma string_length_app (a b : string) :
  String.length (a +:+ b) = (String.length a + String.length b)%nat.
Proof.
  induction a as [|c a IH]; [done|].
  rewrite string_app_cons. simpl. by rewrite IH.
Qed.

Lemma string_app_assoc (a b c : string) : (a +:+ b) +:+ c = a +:+ (b +:+ c).
Proof.
  induction a as [|x a IH]; [done|].
  rewrite !string_app_cons. by rewrite IH.
Qed.

Lemma substring_whole (b : string) : String.substring 0 (String.length b) b = b.
Proof. induction b as [|c b IH]; simpl; [done|by rewrite IH]. Qed.

Lemma substring_front (a b : string) :
  String.substring 0 (String.length a) (a +:+ b) = a.
Proof.
  induction a as [|c a IH]; [by destruct b|].
  rewrite string_app_cons. simpl. by rewrite IH.
Qed.

Lemma substring_back (a b : string) :
  String.substring (String.length a) (String.length b) (a +:+ b) = b.
Proof.
  induction a as [|c a IH]; [apply substring_whole|].
  rewrite string_app_cons. simpl. exact IH.
Qed.

Lemma pretty_N_go_app (x : N) : ∀ s, pretty_N_go x s = pretty_N_go x "" +:+ s.
Proof.
  induction (N.lt_wf_0 x) as [x _ IH]; intros s.
  destruct (decide (x = 0)) as [->|Hx].
  - by rewrite !pretty_N_go_0.
  - rewrite (pretty_N_go_step x s), (pretty_N_go_step x "") by lia.
    assert (Hlt : x `div` 10 < x) by (apply N.div_lt; lia).
    rewrite (IH _ Hlt (String _ s)), (IH _ Hlt (String _ "")).
    by rewrite string_app_assoc.
Qed.

Lemma pretty_N_nonempty (x : N) : (1 ≤ String.length (pretty x))%nat.
Proof.
  unfold pretty, pretty_N. case_decide as Hx; simpl; [lia|].
  rewrite pretty_N_go_step, pretty_N_go_app, string_length_app by lia. simpl. lia.
Qed.

Lemma mod_100_digits (n : N) :
  (n `mod` 100) `div` 10 = (n `div` 10) `mod` 10 ∧ (n `mod` 100) `mod` 10 = n `mod` 10.
Proof.
  assert (H : n `mod` 100 = n `mod` 10 + 10 * ((n `div` 10) `mod` 10)).
  { change 100 with (10 * 10). apply N.Div0.mod_mul_r. }
  assert (Hlt : n `mod` 10 < 10) by (apply N.mod_lt; lia).
  rewrite H. split.
  - rewrite N.add_comm, N.mul_comm, N.div_add_l by lia.
    rewrite (N.div_small (n `mod` 10)) by done. lia.
  - rewrite N.mul_comm, N.Div0.mod_add. by apply N.mod_small.
Qed.

Lemma pretty_N_split (n : N) :
  100 ≤ n → pretty n = pretty (n `div` 100) +:+ two_digits (n `mod` 100).
Proof.
  intros Hn. unfold pretty, pretty_N.
  assert (H10 : 0 < n `div` 10) by (apply N.div_str_pos; lia).
  assert (Hq : (n `div` 10) `div` 10 = n `div` 100) by (by rewrite N.Div0.div_div).
  assert (H100 : 0 < n `div` 100) by (apply N.div_str_pos; lia).
  rewrite !decide_False by lia.
  rewrite (pretty_N_go_step n) by lia.
  rewrite (pretty_N_go_step (n `div` 10)) by lia.
  rewrite Hq, pretty_N_go_app. unfold two_digits.
  destruct (mod_100_digits n) as [-> ->]. done.
Qed.

Lemma hundredths_nearest (num den : N) :
  0 < den →
  2 * den * hundredths num den ≤ 200 * num + den < 2 * den * (hundredths num den + 1).
Proof.
  intros Hden. unfold hundredths.
  replace (2 * 100 * num) with (200 * num) by lia.
  pose proof (N.Div0.mul_div_le (200 * num + den) (2 * den)).
  pose proof (N.mul_succ_div_gt (200 * num + den) (2 * den)).
  lia.
Qed.

Lemma hundredths_ge_100 (num den : N) : 0 < den → den ≤ num → 100 ≤ hundredths num den.
Proof.
  intros Hden Hle. unfold hundredths.
  apply N.div_le_lower_bound; lia.
Qed.

(** From one upwards [toFixed(2)] pads nothing: the digits of the whole
    part, the point, two digits. *)
Lemma toFixed2_two_decimals (num den : N) :
  0 < den → den ≤ num →
  toFixed2 num den
  = pretty (hundredths num den `div` 100) +:+ "." +:+ two_digits (hundredths num den `mod` 100).
Proof.
  intros Hden Hle. unfold toFixed2. fold (hundredths num den).
  pose proof (hundredths_ge_100 num den Hden Hle) as Hn.
  set (n := hundredths num den) in *.
  rewrite (pretty_N_split n Hn).
  set (a := pretty (n `div` 100)). set (b := two_digits (n `mod` 100)).
  assert (Hb : String.length b = 2%nat) by done.
  assert (Ha : (1 ≤ String.length a)%nat) by apply pretty_N_nonempty.
  cbv zeta. rewrite decide_False by (rewrite string_length_app; lia).
  rewrite string_length_app, Hb.
  replace (String.length a + 2 - 2)%nat with (String.length a) by lia.
  rewrite substring_front. rewrite <-Hb at 1. by rewrite substring_back.
Qed.

(** ** [convertToSI] *)

Ltac in_list := repeat first [apply list_elem_of_here | apply list_elem_of_further].

(** C8. For a byte count that a JS number holds exactly: below 1024 the
    formatter returns the count followed by " B"; from 1024 on it picks the
    unit KiB, MiB, GiB or TiB whose power of 1024 is the largest one not
    above the count (TiB from [1024 ^ 4] on), and writes the quotient
    rounded to the nearest hundredth with exactly two digits after the
    point, then a space and the unit. *)
Theorem convertToSI_units (bytes : N) :
  bytes < 2 ^ 53 →
  (bytes < 1024 → convertToSI bytes = pretty bytes +:+ " B")
  ∧ (1024 ≤ bytes →
     ∃ (k : N) (unit : string) (n : N),
       (k, unit) ∈ [(1, "KiB"); (2, "MiB"); (3, "GiB"); (4, "TiB")]
       ∧ 1024 ^ k ≤ bytes
       ∧ (bytes < 1024 ^ (k + 1) ∨ k = 4)
       ∧ 2 * 1024 ^ k * n ≤ 200 * bytes + 1024 ^ k < 2 * 1024 ^ k * (n + 1)
       ∧ convertToSI bytes
         = pretty (n `div` 100) +:+ "." +:+ two_digits (n `mod` 100) +:+ " " +:+ unit).
Proof.
  intros _. unfold convertToSI. cbv zeta. split.
  - intros Hlt. destruct (N.ltb_spec bytes 1024); [|lia].
    destruct (N.leb_spec 0 bytes); [done|lia].
  - intros Hge.
    assert (Hcase : bytes < 1024 * 1024 ∨ 1024 * 1024 ≤ bytes < 1024 * 1024 * 1024
                    ∨ 1024 * 1024 * 1024 ≤ bytes < 1024 * 1024 * 1024 * 1024
                    ∨ 1024 * 1024 * 1024 * 1024 ≤ bytes) by lia.
    destruct (N.ltb_spec bytes 1024); [lia|]. rewrite andb_false_r.
    destruct Hcase as [Hc|[Hc|[Hc|Hc]]].
    + exists 1, "KiB", (hundredths bytes 1024).
      destruct (N.leb_spec 1024 bytes); [|lia].
      destruct (N.ltb_spec bytes (1024 * 1024)); [|lia]. simpl andb. cbv iota.
      split; [in_list|]. split; [lia|]. split; [left; lia|].
      split; [apply (hundredths_nearest bytes (1024 ^ 1)); lia|].
      rewrite toFixed2_two_decimals by lia. by rewrite !string_app_assoc.
    + exists 2, "MiB", (hundredths bytes (1024 * 1024)).
      destruct (N.ltb_spec bytes (1024 * 1024)); [lia|]. rewrite andb_false_r.
      destruct (N.leb_spec (1024 * 1024) bytes); [|lia].
      destruct (N.ltb_spec bytes (1024 * 1024 * 1024)); [|lia]. simpl andb. cbv iota.
      split; [in_list|]. split; [lia|]. split; [left; lia|].
      split; [apply (hundredths_nearest bytes (1024 ^ 2)); lia|].
      rewrite toFixed2_two_decimals by lia. by rewrite !string_app_assoc.
    + exists 3, "GiB", (hundredths bytes (1024 * 1024 * 1024)).
      destruct (N.ltb_spec bytes (1024 * 1024)); [lia|]. rewrite andb_false_r.
      destruct (N.ltb_spec bytes (1024 * 1024 * 1024)); [lia|]. rewrite andb_false_r.
      destruct (N.leb_spec (1024 * 1024 * 1024) bytes); [|lia].
      destruct (N.ltb_spec bytes (1024 * 1024 * 1024 * 1024)); [|lia]. simpl andb. cbv iota.
      split; [in_list|]. split; [lia|]. split; [left; lia|].
      split; [apply (hundredths_nearest bytes (1024 ^ 3)); lia|].
      rewrite toFixed2_two_decimals by lia. by rewrite !string_app_assoc.
    + exists 4, "TiB", (hundredths bytes (1024 * 1024 * 1024 * 1024)).
      destruct (N.ltb_spec bytes (1024 * 1024)); [lia|]. rewrite andb_false_r.
      destruct (N.ltb_spec bytes (1024 * 1024 * 1024)); [lia|]. rewrite andb_false_r.
      destruct (N.ltb_spec bytes (1024 * 1024 * 1024 * 1024)); [lia|]. rewrite andb_false_r.
      destruct (N.leb_spec (1024 * 1024 * 1024 * 1024) bytes); [|lia]. cbv iota.
      split; [in_list|]. split; [lia|]. split; [by right|].
      split; [apply (hundredths_nearest bytes (1024 ^ 4)); lia|].
      rewrite toFixed2_two_decimals by lia. by rewrite !string_app_assoc.
Qed.

Lemma convertToSI_units_witness :
  2621440 < 2 ^ 53
  ∧ (2621440 < 1024 → convertToSI 2621440 = pretty 2621440 +:+ " B")
  ∧ (1024 ≤ 2621440 →
     ∃ (k : N) (unit : string) (n : N),
       (k, unit) ∈ [(1, "KiB"); (2, "MiB"); (3, "GiB"); (4, "TiB")]
       ∧ 1024 ^ k ≤ 2621440
       ∧ (2621440 < 1024 ^ (k + 1) ∨ k = 4)
       ∧ 2 * 1024 ^ k * n ≤ 200 * 2621440 + 1024 ^ k < 2 * 1024 ^ k * (n + 1)
       ∧ convertToSI 2621440
         = pretty (n `div` 100) +:+ "." +:+ two_digits (n `mod` 100) +:+ " " +:+ unit).
Proof.
  split; [reflexivity|]. apply (convertToSI_units 2621440). reflexivity.
Defined.

(** The example of the specification, and the edges of the units. *)
Example convertToSI_samples :
  List.map convertToSI [0; 1023; 1024; 1536; 2621440; 1073741824; 1099511627776]
  = ["0 B"; "1023 B"; "1.00 KiB"; "1.50 KiB"; "2.50 MiB"; "1.00 GiB"; "1.00 TiB"].
Proof. vm_compute. reflexivity. Qed.

(** ** CREATE_FOLDER *)

Lemma walk_app (a b : string) : ∀ st, walk (a +:+ b) st = walk b (walk a st).
Proof.
  induction a as [|c a IH]; intros st; [done|].
  rewrite string_app_cons. simpl. case_bool_decide; apply IH.
Qed.

Lemma resolve_dir_slash (d : string) :
  resolve (d +:+ "/") = rev (walk (d +:+ "/") ("", [])).2
  ∧ (walk (d +:+ "/") ("", [])).1 = "".
Proof. unfold resolve. rewrite walk_app. simpl. done. Qed.

Lemma not_prefix_last_differs (l : list string) (a b : string) :
  a ≠ b → ¬ (l ++ [a]) `prefix_of` (l ++ [b]).
Proof.
  intros Hab [k Hk]. rewrite <-app_assoc in Hk. apply app_inv_head in Hk.
  simpl in Hk. congruence.
Qed.

(** C10. The handler of [CREATE_FOLDER] hands [fs.mkdir] the watched
    directory's path with the received name appended, whatever the name is:
    nothing else is done with the name, and nothing else changes. When the
    watched directory's path ends in a slash and names a directory other
    than the starting point, one of the names [../x] and [../y] makes that
    path one outside the watched directory. *)
Theorem CREATE_FOLDER_path_is_concatenation (config : Config) :
  (∀ (socket : nat) (name : string) (w : World),
     on_CREATE_FOLDER config socket name w
     = Ok tt (set_pending (pending w ++ [KMkdir])
               (set_fs_log (fs_log w ++ [{| fs_at := clock w;
                                            fs_what := Mkdir (filesDir config +:+ name);
                                            fs_then := Some KMkdir |}]) w)))
  ∧ ((∃ d, filesDir config = d +:+ "/") → resolve (filesDir config) ≠ [] →
     ∃ name, (name = "../x" ∨ name = "../y")
             ∧ starts_with "../" name = true
             ∧ ¬ within (filesDir config) (filesDir config +:+ name)).
Proof.
  split; [done|].
  intros [d Hd] Hne. unfold within. rewrite Hd in *.
  destruct (resolve_dir_slash d) as [Hres Hcur]. rewrite Hres in *.
  destruct (walk (d +:+ "/") ("", [])) as [cur dirs] eqn:Hw. simpl in *. subst cur.
  destruct dirs as [|top rest]; [done|].
  assert (Hstep : ∀ m, resolve ((d +:+ "/") +:+ "../" +:+ m) = rev (let st := walk m ("", rest) in enter st.1 st.2)).
  { intros m. unfold resolve. rewrite walk_app, Hw. done. }
  destruct (decide (top = "x")) as [->|Hx].
  - exists "../y". split; [by right|]. split; [done|].
    change "../y" with ("../" +:+ "y"). rewrite Hstep. simpl.
    by apply not_prefix_last_differs.
  - exists "../x". split; [by left|]. split; [done|].
    change "../x" with ("../" +:+ "x"). rewrite Hstep. simpl.
    by apply not_prefix_last_differs.
Qed.

Lemma CREATE_FOLDER_path_is_concatenation_witness :
  (∃ d, filesDir sample_config = d +:+ "/")
  ∧ resolve (filesDir sample_config) ≠ []
  ∧ ∃ name, (name = "../x" ∨ name = "../y")
            ∧ starts_with "../" name = true
            ∧ ¬ within (filesDir sample_config) (filesDir sample_config +:+ name).
Proof.
  assert (H1 : ∃ d, filesDir sample_config = d +:+ "/") by (by exists "./files").
  assert (H2 : resolve (filesDir sample_config) ≠ []) by (vm_compute; discriminate).
  split; [exact H1|]. split; [exact H2|].
  exact (proj2 (CREATE_FOLDER_path_is_concatenation sample_config) H1 H2).
Defined.

(** The sample: [./files/../x] is [x] beside [files], not inside it. *)
Example CREATE_FOLDER_sample_escapes :
  resolve "./files/" = ["files"] ∧ resolve ("./files/" +:+ "../x") = ["x"]
  ∧ resolve ("./files/" +:+ "new") = ["files"; "new"].
Proof. vm_compute. done. Qed.

(** ** A failed [listen] *)

Section Startup.
Context (config : Config) (unescape mime_lookup : string → string).

Lemma mkdir_reaches_listen err ssl :
  server (step config unescape mime_lookup (MkdirFilesDirDone err ssl) init) = Binding →
  step config unescape mime_lookup (MkdirFilesDirDone err ssl) init = set_server Binding init.
Proof.
  destruct err as [e|], ssl as [[e'|]|]; simpl; unfold turn, mkdir_filesDir_callback;
    unfold_M; simpl; try done; repeat case_bool_decide; simpl; try done;
    rewrite handleError_eq; simpl; done.
Qed.

Lemma on_error_eq err w :
  on_error config err w
  = Ok tt (set_console
             (console w ++
              if bool_decide (err_code err = "EADDRINUSE")
              then ["Failed to bind to config.port " +:+ pretty (port config) +:+ "."]
              else error_lines err) w).
Proof. unfold on_error. case_bool_decide; [done|apply handleError_eq]. Qed.

(** In an idle process no event does anything but move the clock. *)
Lemma step_idle ev w :
  idle w → ∃ t, step config unescape mime_lookup ev w = set_clock t w.
Proof.
  intros (Hs & Hio & Hso & Hc & Ht & Hp & Hfs & _).
  destruct ev; simpl; unfold watching; rewrite ?Hs, ?Hio, ?Hso, ?Hc, ?Ht, ?Hp, ?Hfs; simpl;
    try (exists (clock w); by destruct w).
  - by eexists.
  - exists (clock w). destruct w. simpl in *. by subst.
Qed.

Lemma steps_idle evs : ∀ w,
  idle w → ∃ t, steps config unescape mime_lookup evs w = set_clock t w.
Proof.
  induction evs as [|ev evs IH]; intros w Hw; simpl.
  - exists (clock w). by destruct w.
  - destruct (step_idle ev w Hw) as [t ->].
    destruct (IH (set_clock t w)) as [t' ->]; [exact Hw|].
    exists t'. by destruct w.
Qed.

(** C7. Start-up got as far as [server.listen] and the operating system
    refuses the port with [err]. The error listener logs (one line for
    EADDRINUSE, the error's message and stack otherwise) and that is the
    end of start-up: the "listening" listener never runs, so socket.io is
    not attached, no watcher is made, no listing is asked for and no
    socket listener is set; whatever happens afterwards, no callback of
    the server runs again, and with no bound server, watcher, timer or
    [fs] request left the process is not kept running. *)
Theorem listen_failure_ends_startup (mkdir_err : option Error)
    (ssl : option (option Error)) (err : Error) (evs : list Event) :
  server (step config unescape mime_lookup (MkdirFilesDirDone mkdir_err ssl) init) = Binding →
  let w := steps config unescape mime_lookup
             [MkdirFilesDirDone mkdir_err ssl; ServerError err] init in
  let w' := steps config unescape mime_lookup evs w in
  console w = (if bool_decide (err_code err = "EADDRINUSE")
               then ["Failed to bind to config.port " +:+ pretty (port config) +:+ "."]
               else error_lines err)
  ∧ server w' = BindFailed
  ∧ io_attached w' = false
  ∧ watching w' = false
  ∧ sockets_ready w' = false
  ∧ rebuilds w' = []
  ∧ clients w' = [] ∧ emitted w' = [] ∧ http w' = []
  ∧ console w' = console w
  ∧ running w' = false.
Proof.
  intros Hlisten. cbv zeta.
  change (steps config unescape mime_lookup
            [MkdirFilesDirDone mkdir_err ssl; ServerError err] init)
    with (step config unescape mime_lookup (ServerError err)
            (step config unescape mime_lookup (MkdirFilesDirDone mkdir_err ssl) init)).
  rewrite (mkdir_reaches_listen _ _ Hlisten).
  set (w := step _ _ _ (ServerError err) _).
  assert (Hw : w = set_console
                     (if bool_decide (err_code err = "EADDRINUSE")
                      then ["Failed to bind to config.port " +:+ pretty (port config) +:+ "."]
                      else error_lines err) (set_server BindFailed init)).
  { unfold w. simpl. unfold turn. rewrite on_error_eq. done. }
  assert (Hidle : idle w) by (by rewrite Hw).
  destruct (steps_idle evs w Hidle) as [t ->].
  rewrite Hw. done.
Qed.
End Startup.

Lemma listen_failure_ends_startup_witness :
  server (step sample_config (λ s, s) (λ _, "") (MkdirFilesDirDone None None) init) = Binding
  ∧ let w := steps sample_config (λ s, s) (λ _, "")
               [MkdirFilesDirDone None None;
                ServerError {| err_code := "EADDRINUSE"; err_message := "listen EADDRINUSE";
                               err_stack := "Error: listen EADDRINUSE" |}] init in
    let w' := steps sample_config (λ s, s) (λ _, "") [Elapse 1000; Connect 1; REQUEST_UPDATE 1] w in
    console w = ["Failed to bind to config.port 8080."]
    ∧ server w' = BindFailed
    ∧ io_attached w' = false
    ∧ watching w' = false
    ∧ sockets_ready w' = false
    ∧ rebuilds w' = []
    ∧ clients w' = [] ∧ emitted w' = [] ∧ http w' = []
    ∧ console w' = console w
    ∧ running w' = false.
Proof.
  split; [reflexivity|].
  exact (listen_failure_ends_startup sample_config (λ s, s) (λ _, "") None None
           {| err_code := "EADDRINUSE"; err_message := "listen EADDRINUSE";
              err_stack := "Error: listen EADDRINUSE" |}
           [Elapse 1000; Connect 1; REQUEST_UPDATE 1] eq_refl).
Defined.

(** ** Invariants of the event loop *)

Create HintDb keep discriminated.

Section Preserves.
Context (config : Config) (unescape mime_lookup : string → string).
(** A property of [fileList] and of the messages sent, kept by a
    broadcast. *)
Context (I : World → Prop).
Hypothesis I_frame :
  ∀ w w', fileList w' = fileList w → emitted w' = emitted w → I w → I w'.
Hypothesis I_broadcast : ∀ w, I w → I (set_emitted (emitted w ++ broadcast w) w).

Lemma preserves_mret {A} (a : A) : preserves I (mret a).
Proof. by intros w Hw. Qed.

Lemma preserves_throw {A} (e : Error) : preserves I (throw (A:=A) e).
Proof. by intros w Hw. Qed.

Lemma preserves_bind {A B} (m : M A) (f : A → M B) :
  preserves I m → (∀ a, preserves I (f a)) → preserves I (m ≫= f).
Proof.
  intros Hm Hf w Hw. specialize (Hm w Hw). unfold mbind, M_bind.
  destruct (m w) as [a w'|e w']; simpl in *; [by apply Hf|done].
Qed.

Lemma preserves_try_catch {A} (m : M A) (h : Error → M A) :
  preserves I m → (∀ e, preserves I (h e)) → preserves I (try_catch m h).
Proof.
  intros Hm Hh w Hw. specialize (Hm w Hw). unfold try_catch.
  destruct (m w) as [a w'|e w']; simpl in *; [done|by apply Hh].
Qed.

Lemma preserves_get {A} (f : World → A) : preserves I (get f).
Proof. by intros w Hw. Qed.

Lemma preserves_modify (f : World → World) :
  (∀ w, fileList (f w) = fileList w ∧ emitted (f w) = emitted w) → preserves I (modify f).
Proof. intros Hf w Hw. simpl. destruct (Hf w). by eapply I_frame. Qed.

Lemma preserves_if {A} (b : bool) (m1 m2 : M A) :
  preserves I m1 → preserves I m2 → preserves I (if b then m1 else m2).
Proof. by destruct b. Qed.

Hint Resolve preserves_mret preserves_throw preserves_bind preserves_try_catch
  preserves_get preserves_modify preserves_if : keep.
Hint Extern 1 (∀ w, fileList _ = fileList w ∧ emitted _ = emitted w) =>
  (intros; split; reflexivity) : keep.

Ltac preserves_tac := eauto 20 with keep.

Lemma preserves_log msg : preserves I (log msg).
Proof. unfold log. preserves_tac. Qed.
Hint Resolve preserves_log : keep.

Lemma preserves_handleError err : preserves I (handleError err).
Proof. unfold handleError. preserves_tac. Qed.
Hint Resolve preserves_handleError : keep.

Lemma preserves_fs_call c : preserves I (fs_call c).
Proof. unfold fs_call. preserves_tac. Qed.

Lemma preserves_fs_async c k : preserves I (fs_async c k).
Proof. unfold fs_async. preserves_tac. Qed.

Lemma preserves_res_op socket op : preserves I (res_op socket op).
Proof. unfold res_op. preserves_tac. Qed.

Lemma preserves_SendUpdate : preserves I SendUpdate.
Proof. intros w Hw. rewrite SendUpdate_eq. by apply I_broadcast. Qed.

Hint Resolve preserves_fs_call preserves_fs_async preserves_res_op
  preserves_SendUpdate : keep.

Lemma preserves_uncaughtException err : preserves I (uncaughtException err).
Proof. unfold uncaughtException. preserves_tac. Qed.

Lemma turn_preserves (m : M unit) w : preserves I m → I w → I (turn m w).
Proof.
  intros Hm Hw. specialize (Hm w Hw). unfold turn.
  destruct (m w) as [a w'|e w']; simpl in *; [done|].
  by apply preserves_uncaughtException.
Qed.

Lemma preserves_stat_callback path mimeType socket err stats :
  preserves I (stat_callback path mimeType socket err stats).
Proof. unfold stat_callback. destruct err, stats; preserves_tac. Qed.

Lemma preserves_delete_callback url socket err statSync :
  preserves I (delete_callback config unescape url socket err statSync).
Proof.
  unfold delete_callback, statSync_m. destruct err; [preserves_tac|].
  apply preserves_bind; [preserves_tac|]. intros _.
  apply preserves_try_catch; [|preserves_tac].
  destruct (statSync _) as [e|stats]; [preserves_tac|].
  apply preserves_bind; [preserves_tac|]. intros s.
  destruct (isFile s), (isDirectory s); preserves_tac.
Qed.

Lemma preserves_mkdir_callback err : preserves I (mkdir_callback err).
Proof. unfold mkdir_callback. destruct err; preserves_tac. Qed.

Lemma preserves_mkdir_filesDir_callback err ssl :
  preserves I (mkdir_filesDir_callback err ssl).
Proof.
  unfold mkdir_filesDir_callback.
  destruct err as [e|], ssl as [[e'|]|]; preserves_tac.
Qed.

Lemma preserves_on_error err : preserves I (on_error config err).
Proof. unfold on_error. preserves_tac. Qed.

Lemma preserves_handleFileRequest url socket :
  preserves I (handleFileRequest config unescape mime_lookup url socket).
Proof. unfold handleFileRequest. preserves_tac. Qed.

Lemma preserves_handleUploadRequest url socket :
  preserves I (handleUploadRequest url socket).
Proof. unfold handleUploadRequest. preserves_tac. Qed.

Lemma preserves_form_error err : preserves I (form_error err).
Proof. unfold form_error. preserves_tac. Qed.

Hint Resolve preserves_stat_callback preserves_delete_callback preserves_mkdir_callback
  preserves_mkdir_filesDir_callback preserves_on_error preserves_handleFileRequest
  preserves_handleUploadRequest preserves_form_error : keep.

(** A quiet event keeps the property. *)
Lemma step_quiet ev w :
  quiet ev w = true → I w → I (step config unescape mime_lookup ev w).
Proof.
  intros Hq Hw.
  assert (Hset : ∀ w', fileList w' = fileList w → emitted w' = emitted w → I w')
    by (intros; by eapply I_frame).
  assert (Hif : ∀ (b : bool) (m : M unit), preserves I m → I (if b then turn m w else w))
    by (intros [] m Hm; [by apply turn_preserves|done]).
  destruct ev; try discriminate Hq; cbn [step].
  - by apply Hset.
  - apply Hif. preserves_tac.
  - destruct (bool_decide _); [|done]. apply turn_preserves; [preserves_tac|by apply Hset].
  - cbn [quiet] in Hq.
    destruct (pending w !! k) as [[cb|url socket|path mimeType socket|]|]; try done;
      (apply turn_preserves; [cbn [continue]; preserves_tac|by apply Hset]).
  - destruct (_ && _); [by apply Hset|done].
  - by apply Hset.
  - apply Hif. unfold on_REQUEST_UPDATE. preserves_tac.
  - apply Hif. unfold on_CREATE_FOLDER. preserves_tac.
  - apply Hif. preserves_tac.
  - apply Hif. unfold handleDeleteRequest. preserves_tac.
  - apply Hif. preserves_tac.
  - apply Hif. unfold form_fileBegin. preserves_tac.
  - apply Hif. unfold form_end. preserves_tac.
  - apply Hif. preserves_tac.
Qed.

Lemma steps_quiet evs : ∀ w,
  quiet_trace (step config unescape mime_lookup) evs w = true → I w →
  I (steps config unescape mime_lookup evs w).
Proof.
  induction evs as [|ev evs IH]; intros w Hq Hw; simpl in *; [done|].
  apply andb_true_iff in Hq as [Hq1 Hq2]. apply IH; [done|]. by apply step_quiet.
Qed.
End Preserves.

(** ** Reads while a rebuild is under way *)

(** C2, the claim as stated fails. The rebuild at start-up has finished and
    [fileList] holds [a.txt]. A change is signalled, which starts a rebuild;
    before its listing arrives socket 1 asks for an update, and what is sent
    is the empty object: neither the snapshot before, nor the one the
    rebuild ends with (here the same one, since the directory did not
    change). *)
Lemma read_during_rebuild_sees_empty_object :
  let a := {| e_name := "a.txt"; e_type := "f"; e_size := 10 |} in
  let w := sample_steps [FsWatch "change" "a.txt"; REQUEST_UPDATE 1] listed in
  let w' := sample_steps [FsAnswer 0 None (Some ["a.txt"]) None sample_statSync] w in
  fileList listed = <[0%nat := a]> ∅
  ∧ pending listed = []
  ∧ emitted listed = []
  ∧ fileList w = ∅
  ∧ emitted w = [(1%nat, ("UPDATE_FILES", "{}")); (2%nat, ("UPDATE_FILES", "{}"))]
  ∧ JSON_stringify (fileList listed) ≠ "{}"
  ∧ fileList w' = <[0%nat := a]> ∅.
Proof. vm_compute. repeat split; done. Qed.

(** Two rebuilds under way at once write into one object: the first
    listing still names [sub]; the second, made after [sub] was removed,
    does not, and its callback leaves the entry of the first in place and
    broadcasts it. *)
Example overlapping_rebuilds_share_the_object :
  let sub := {| e_name := "sub"; e_type := "d"; e_size := 0 |} in
  let w := sample_steps
             [FsWatch "rename" "sub"; FsWatch "rename" "sub";
              FsAnswer 0 None (Some ["a.txt"; "sub"]) None sample_statSync;
              FsAnswer 0 None (Some ["a.txt"]) None sample_statSync_later] listed in
  pending w = [] ∧ fileList w !! 1%nat = Some sub
  ∧ length (emitted w) = 4%nat
  ∧ emitted w !! 3%nat = Some (2%nat, ("UPDATE_FILES", JSON_stringify (fileList w))).
Proof. vm_compute. done. Qed.

Section Reset.
Context (config : Config) (unescape mime_lookup : string → string).

Lemma awaiting_frame base w w' :
  fileList w' = fileList w → emitted w' = emitted w → awaiting base w → awaiting base w'.
Proof. intros Hf He [H1 H2]. split; [by rewrite Hf|by rewrite He]. Qed.

Lemma awaiting_broadcast base w :
  awaiting base w → awaiting base (set_emitted (emitted w ++ broadcast w) w).
Proof.
  intros [Hf (pushes & He & Hall)]. split; [done|].
  exists (pushes ++ broadcast w). simpl. rewrite He, <-app_assoc. split; [done|].
  apply Forall_app. split; [done|].
  unfold broadcast. rewrite Hf. apply Forall_forall. intros m Hm.
  apply list_elem_of_In, in_map_iff in Hm as (s & <- & _). done.
Qed.

(** C2, amended. A rebuild puts a fresh empty object in [fileList] when it
    starts and fills that object when its listing arrives, in one callback.
    From the start until that callback, as long as no other rebuild starts
    or ends, [fileList] is the empty object and every [UPDATE_FILES]
    message sent carries it, whatever was listed before. After the
    callback [fileList] holds, under its index in the listing, every entry
    that [statSync] reports as a plain file or as a directory, with the
    reported size, and nothing for an entry whose [statSync] throws or
    beyond the end of the listing. *)
Theorem rebuild_resets_then_fills (callback : option Callback) (w : World)
    (evs : list Event) (files : list string) (statSync : string → Error + Stats) :
  let w1 := turn (prepareFileList config callback) w in
  let w2 := steps config unescape mime_lookup evs w1 in
  let w3 := turn (readdir_callback config callback None (Some files) statSync) w2 in
  quiet_trace (step config unescape mime_lookup) evs w1 = true →
  fileList w1 = ∅
  ∧ fileList w2 = ∅
  ∧ (∃ pushes, emitted w2 = emitted w ++ pushes
               ∧ Forall (λ m, m.2 = ("UPDATE_FILES", "{}")) pushes)
  ∧ (∀ k, (length files ≤ k)%nat → fileList w3 !! k = None)
  ∧ (∀ k name, files !! k = Some name →
     match statSync (filesDir config +:+ name) with
     | inl _ => fileList w3 !! k = None
     | inr stats =>
         if isDirectory stats then
           fileList w3 !! k = Some {| e_name := name; e_type := "d"; e_size := st_size stats |}
         else if isFile stats then
           fileList w3 !! k = Some {| e_name := name; e_type := "f"; e_size := st_size stats |}
         else True
     end).
Proof.
  intros w1 w2 w3 Hquiet.
  destruct (prepareFileList_runs_at_once config callback w)
    as (w1' & Hrun & _ & _ & _ & Hempty & _ & _ & Hemit & _).
  assert (Hw1 : w1 = w1') by (unfold w1, turn; by rewrite Hrun). 
  assert (H1 : awaiting (emitted w) w1).
  { rewrite Hw1. split; [done|]. exists []. by rewrite Hemit, app_nil_r. }
  assert (H2 : awaiting (emitted w) w2).
  { apply (steps_quiet config unescape mime_lookup (awaiting (emitted w))); 
      [apply awaiting_frame|apply awaiting_broadcast|done|done]. }
  destruct H1 as [H1 _]. destruct H2 as [H2 Hpushes].
  split; [done|]. split; [done|]. split; [done|].
  destruct (fill_loop_spec config statSync files 0 None w2)
    as (wf & Hloop & Hfills & Hout & _ & Hin).
  assert (Hw3 : fileList w3 = fileList wf).
  { unfold w3, turn, readdir_callback. unfold_M. rewrite Hloop.
    destruct callback as [[]|]; done. }
  rewrite Hw3. split.
  - intros k Hk. rewrite Hout by (right; simpl; lia). by rewrite H2.
  - intros k name Hk. specialize (Hin k name Hk). simpl in Hin.
    destruct (statSync (filesDir config +:+ name)); [|done].
    by rewrite Hin, H2.
Qed.
End Reset.

Lemma rebuild_resets_then_fills_witness :
  let unescape := λ s : string, s in
  let mime_lookup := λ _ : string, "" in
  let evs := [REQUEST_UPDATE 1; GET_delete "/delete/nope" "10.0.0.7:5000"] in
  let w1 := turn (prepareFileList sample_config (Some CbSendUpdate)) listed in
  let w2 := steps sample_config unescape mime_lookup evs w1 in
  let w3 := turn (readdir_callback sample_config (Some CbSendUpdate) None
                    (Some ["a.txt"; "gone"; "sub"]) sample_statSync) w2 in
  quiet_trace (step sample_config unescape mime_lookup) evs w1 = true
  ∧ fileList w1 = ∅
  ∧ fileList w2 = ∅
  ∧ (∃ pushes, emitted w2 = emitted listed ++ pushes
               ∧ Forall (λ m, m.2 = ("UPDATE_FILES", "{}")) pushes)
  ∧ (∀ k, (length ["a.txt"; "gone"; "sub"] ≤ k)%nat → fileList w3 !! k = None)
  ∧ (∀ k name, ["a.txt"; "gone"; "sub"] !! k = Some name →
     match sample_statSync (filesDir sample_config +:+ name) with
     | inl _ => fileList w3 !! k = None
     | inr stats =>
         if isDirectory stats then
           fileList w3 !! k = Some {| e_name := name; e_type := "d"; e_size := st_size stats |}
         else if isFile stats then
           fileList w3 !! k = Some {| e_name := name; e_type := "f"; e_size := st_size stats |}
         else True
     end).
Proof.
  split; [reflexivity|].
  apply (rebuild_resets_then_fills sample_config (λ s, s) (λ _, "") (Some CbSendUpdate) listed
           [REQUEST_UPDATE 1; GET_delete "/delete/nope" "10.0.0.7:5000"]
           ["a.txt"; "gone"; "sub"] sample_statSync).
  reflexivity.
Defined.

(** ** The payload of UPDATE_FILES *)

Global Instance key_le_total : Total key_le.
Proof. intros a b. unfold key_le. lia. Qed.

Lemma own_properties_spec (o : FileList) i e : (i, e) ∈ own_properties o ↔ o !! i = Some e.
Proof.
  unfold own_properties. rewrite merge_sort_Permutation. apply elem_of_map_to_list.
Qed.

Lemma own_properties_sorted (o : FileList) : Sorted (λ a b, a.1 ≤ b.1)%nat (own_properties o).
Proof. apply (Sorted_merge_sort key_le). Qed.

Lemma object_payload_intro (s : nat) (o : FileList) :
  map_Forall (λ _, typed_entry) o → object_payload (s, ("UPDATE_FILES", JSON_stringify o)).
Proof.
  intros Ho. exists o. split; [done|]. split; [apply own_properties_spec|].
  split; [|apply own_properties_sorted]. intros i e Hi. exact (Ho i e Hi).
Qed.

Lemma payloads_ok_frame w w' :
  fileList w' = fileList w → emitted w' = emitted w → payloads_ok w → payloads_ok w'.
Proof. intros Hf He [H1 H2]. split; [by rewrite Hf|by rewrite He]. Qed.

Lemma payloads_ok_broadcast w :
  payloads_ok w → payloads_ok (set_emitted (emitted w ++ broadcast w) w).
Proof.
  intros [Hf He]. split; [done|]. simpl. apply Forall_app. split; [done|].
  apply Forall_forall. intros m Hm.
  apply list_elem_of_In, in_map_iff in Hm as (s & <- & _). by apply object_payload_intro.
Qed.

(** The messages of one callback *)

Lemma pushed_frame base w w' :
  fileList w' = fileList w → emitted w' = emitted w → pushed base w → pushed base w'.
Proof. intros Hf He (p & H1 & H2). exists p. by rewrite Hf, He. Qed.

Lemma pushed_broadcast base w :
  pushed base w → pushed base (set_emitted (emitted w ++ broadcast w) w).
Proof.
  intros (p & H1 & H2). exists (p ++ broadcast w). simpl. split.
  - by rewrite H1, app_assoc.
  - apply Forall_app. split; [done|]. unfold broadcast. apply Forall_forall.
    intros m Hm. apply list_elem_of_In, in_map_iff in Hm as (s & <- & _). done.
Qed.

Lemma pushed_nothing w w' : emitted w' = emitted w → pushed (emitted w) w'.
Proof. intros He. exists []. by rewrite He, app_nil_r. Qed.

Section Pushed.
Context (config : Config) (unescape mime_lookup : string → string).

Local Abbreviation silent base := (preserves (λ w, emitted w = base)).

Lemma silent_frame base w w' :
  fileList w' = fileList w → emitted w' = emitted w → emitted w = base → emitted w' = base.
Proof. congruence. Qed.

Lemma silent_prepareFileList base callback : silent base (prepareFileList config callback).
Proof.
  intros w Hw.
  destruct (prepareFileList_runs_at_once config callback w)
    as (w' & -> & _ & _ & _ & _ & _ & _ & Hemit & _).
  simpl. congruence.
Qed.

Lemma silent_on_listening base address : silent base (on_listening config address).
Proof.
  unfold on_listening.
  apply preserves_bind; [apply preserves_log, silent_frame|]. intros _.
  apply preserves_bind; [by apply preserves_modify; [apply silent_frame|]|]. intros _.
  apply preserves_bind; [apply preserves_fs_call, silent_frame|]. intros _.
  apply preserves_bind; [apply silent_prepareFileList|]. intros _.
  by apply preserves_modify; [apply silent_frame|].
Qed.

Lemma silent_watch_callback base event filename :
  silent base (watch_callback config event filename).
Proof.
  unfold watch_callback.
  destruct (_ || _); [apply silent_prepareFileList|apply preserves_mret].
Qed.

Lemma silent_later base c : silent base (later config c).
Proof.
  unfold later. apply preserves_bind; [apply preserves_get|]. intros w0.
  destruct (closures w0 !! c) as [d|]; [|apply preserves_mret].
  apply preserves_bind; [by apply preserves_modify; [apply silent_frame|]|]. intros _.
  destruct (d_immediate d); [apply preserves_mret|].
  unfold apply. destruct (d_func d) as [[cb]|]; [|apply preserves_throw].
  apply preserves_bind; [|intros _; apply preserves_mret].
  intros w Hw. simpl. done.
Qed.

Lemma silent_turn (m : M unit) w : silent (emitted w) m → pushed (emitted w) (turn m w).
Proof.
  intros Hm. apply pushed_nothing.
  by apply (turn_preserves (λ w', emitted w' = emitted w)); [apply silent_frame| |].
Qed.

(** The callback of [fs.readdir] sends, if at all, when the loop is over. *)
Lemma readdir_callback_pushed callback err files statSync w :
  pushed (emitted w) (turn (readdir_callback config callback err files statSync) w).
Proof.
  unfold turn, readdir_callback.
  assert (H1 : ∃ w1, (match err with Some e => handleError e | None => mret tt end) w
                     = Ok tt w1 ∧ emitted w1 = emitted w ∧ fileList w1 = fileList w).
  { destruct err as [e|]; [|by exists w]. rewrite handleError_eq. eexists. done. }
  destruct H1 as (w1 & H1 & He1 & _).
  unfold_M. rewrite H1. destruct files as [files|].
  - destruct (fill_loop_spec config statSync files 0 None w1) as (w2 & -> & Hfills & _).
    assert (He2 : emitted w2 = emitted w) by (rewrite Hfills; simpl; done).
    destruct callback as [[]|]; simpl.
    + rewrite <-He2. apply (pushed_broadcast (emitted w2) w2). by apply pushed_nothing.
    + by apply pushed_nothing.
  - simpl. apply pushed_nothing.
    transitivity (emitted w1); done.
Qed.

(** What one event adds to the messages sent carries [fileList] as the
    event leaves it. *)
Lemma step_pushed ev w : pushed (emitted w) (step config unescape mime_lookup ev w).
Proof.
  assert (H0 : pushed (emitted w) w) by (by apply pushed_nothing).
  destruct (quiet ev w) eqn:Hq.
  { by apply step_quiet; [apply pushed_frame|apply pushed_broadcast| |]. }
  destruct ev; try discriminate Hq; cbn [step].
  - destruct (bool_decide _); [|done].
    change (emitted w) with (emitted (set_server Listening w)).
    apply silent_turn, silent_on_listening.
  - destruct (watching w); [|done]. apply silent_turn, silent_watch_callback.
  - cbn [quiet] in Hq.
    destruct (pending w !! k) as [[cb|url socket|path mimeType socket|]|]; try done.
    cbn [continue].
    change (emitted w) with (emitted (set_pending (delete k (pending w)) w)).
    apply readdir_callback_pushed.
  - destruct (List.find _ _) as [t|]; [|done].
    destruct (_ <=? _); [|done].
    match goal with |- pushed _ (turn _ ?w1) => change (emitted w) with (emitted w1) end.
    apply silent_turn, silent_later.
Qed.
End Pushed.

Section Payload.
Context (config : Config) (unescape mime_lookup : string → string).

Local Abbreviation keeps := (preserves payloads_ok).

Lemma keeps_bind {A B} (m : M A) (f : A → M B) :
  keeps m → (∀ a, keeps (f a)) → keeps (m ≫= f).
Proof. apply preserves_bind. Qed.

Lemma keeps_SendUpdate : keeps SendUpdate.
Proof. apply preserves_SendUpdate, payloads_ok_broadcast. Qed.

Lemma keeps_modify (f : World → World) :
  (∀ w, fileList (f w) = fileList w ∧ emitted (f w) = emitted w) → keeps (modify f).
Proof. apply preserves_modify, payloads_ok_frame. Qed.

Lemma keeps_run callback : keeps (run config callback).
Proof.
  intros w [_ He]. simpl. split; [apply map_Forall_empty|done].
Qed.

Lemma keeps_prepareFileList callback : keeps (prepareFileList config callback).
Proof.
  intros w [_ He].
  destruct (prepareFileList_runs_at_once config callback w)
    as (w' & -> & _ & _ & _ & Hf & _ & _ & Hemit & _).
  simpl. split; [rewrite Hf; apply map_Forall_empty|by rewrite Hemit].
Qed.

Lemma keeps_readdir_callback callback err files statSync :
  keeps (readdir_callback config callback err files statSync).
Proof.
  unfold readdir_callback. apply keeps_bind.
  { destruct err; [apply preserves_handleError, payloads_ok_frame|apply preserves_mret]. }
  intros _. destruct files as [files|]; [|apply preserves_throw].
  apply keeps_bind.
  - intros w [Hf He].
    destruct (fill_loop_spec config statSync files 0 None w) as (w' & -> & Hfills & _ & Hty & _).
    simpl. split; [by apply Hty|]. rewrite Hfills. by destruct w.
  - intros _. destruct callback as [[]|]; [apply keeps_SendUpdate|apply preserves_mret].
Qed.

Lemma keeps_later c : keeps (later config c).
Proof.
  unfold later. apply keeps_bind; [apply preserves_get|]. intros w0.
  destruct (closures w0 !! c) as [d|]; [|apply preserves_mret].
  apply keeps_bind; [by apply keeps_modify|]. intros _.
  destruct (d_immediate d); [apply preserves_mret|].
  unfold apply. destruct (d_func d) as [[cb]|]; [|apply preserves_throw].
  apply keeps_bind; [apply keeps_run|]. intros _. apply preserves_mret.
Qed.

Lemma keeps_on_listening address : keeps (on_listening config address).
Proof.
  unfold on_listening.
  apply keeps_bind; [apply preserves_log, payloads_ok_frame|]. intros _.
  apply keeps_bind; [by apply keeps_modify|]. intros _.
  apply keeps_bind; [apply preserves_fs_call, payloads_ok_frame|]. intros _.
  apply keeps_bind; [apply keeps_prepareFileList|]. intros _.
  by apply keeps_modify.
Qed.

Lemma keeps_watch_callback event filename : keeps (watch_callback config event filename).
Proof.
  unfold watch_callback.
  destruct (_ || _); [apply keeps_prepareFileList|apply preserves_mret].
Qed.

Lemma step_payloads_ok ev w :
  payloads_ok w → payloads_ok (step config unescape mime_lookup ev w).
Proof.
  intros Hw. destruct (quiet ev w) eqn:Hq.
  { by apply step_quiet; [apply payloads_ok_frame|apply payloads_ok_broadcast| |]. }
  assert (Hturn : ∀ m w', keeps m → payloads_ok w' → payloads_ok (turn m w')).
  { intros m w' Hm Hw'.
    by apply turn_preserves; [apply payloads_ok_frame| |]. }
  assert (Hset : ∀ w', fileList w' = fileList w → emitted w' = emitted w → payloads_ok w')
    by (intros; by eapply payloads_ok_frame).
  destruct ev; try discriminate Hq; cbn [step].
  - destruct (bool_decide _); [|done].
    apply Hturn; [apply keeps_on_listening|by apply Hset].
  - destruct (watching w); [|done]. apply Hturn; [apply keeps_watch_callback|done].
  - cbn [quiet] in Hq.
    destruct (pending w !! k) as [[cb|url socket|path mimeType socket|]|]; try done.
    apply Hturn; [apply keeps_readdir_callback|by apply Hset].
  - destruct (List.find _ _) as [t|]; [|done].
    destruct (_ <=? _); [|done].
    apply Hturn; [apply keeps_later|by apply Hset].
Qed.

Lemma steps_payloads_ok evs : ∀ w,
  payloads_ok w → payloads_ok (steps config unescape mime_lookup evs w).
Proof.
  induction evs as [|ev evs IH]; intros w Hw; simpl; [done|].
  apply IH. by apply step_payloads_ok.
Qed.

(** C5, amended. Every message the server sends is an [UPDATE_FILES]
    message sent by the callback of one of the events, and its payload is
    the serialisation of [fileList] as that callback leaves it (no callback
    changes [fileList] after it has sent). The payload is a JSON object, not
    an array: one member for each property of that [fileList], in ascending
    order of the index, whose name is the index in decimal and whose value
    is an object with the members [name] (a string), [type] (the string [f]
    or the string [d]) and [size] (a whole number), in this order. *)
Theorem UPDATE_FILES_payload_is_object (evs : list Event) (n : nat)
    (m : nat * (string * string)) :
  emitted (steps config unescape mime_lookup evs init) !! n = Some m →
  sent_in_step config unescape mime_lookup evs n m.
Proof.
  revert n m. induction evs as [|ev evs IH] using rev_ind; intros n m Hn.
  { simpl in Hn. by rewrite lookup_nil in Hn. }
  unfold steps in Hn. rewrite foldl_app in Hn. simpl in Hn.
  fold (steps config unescape mime_lookup evs init) in Hn.
  set (w := steps config unescape mime_lookup evs init) in *.
  destruct (step_pushed config unescape mime_lookup ev w) as (pushes & Hemit & Hpushes).
  destruct (decide (n < length (emitted w))%nat) as [Hlt|Hge].
  - rewrite Hemit, lookup_app_l in Hn by done.
    destruct (IH n m Hn) as (evs1 & ev0 & evs2 & -> & Hin).
    exists evs1, ev0, (evs2 ++ [ev]). split; [by rewrite <-app_assoc|exact Hin].
  - exists evs, ev, []. split; [done|]. cbv zeta. fold w.
    apply lookup_lt_Some in Hn as Hlen. split; [lia|].
    split; [done|].
    rewrite Hemit, lookup_app_r in Hn by lia.
    apply list_elem_of_lookup_2 in Hn.
    rewrite Forall_forall in Hpushes. specialize (Hpushes m Hn).
    assert (Hok : payloads_ok (step config unescape mime_lookup ev w)).
    { apply step_payloads_ok, steps_payloads_ok.
      split; [apply map_Forall_empty|constructor]. }
    destruct Hok as [Hty _].
    split; [done|]. split; [done|]. split; [apply own_properties_spec|].
    split; [|apply own_properties_sorted]. intros i e Hi. exact (Hty i e Hi).
Qed.
End Payload.

(** After the rebuild that lists [a.txt], a [REQUEST_UPDATE] of the first
    client is answered to both; the message to the second is the second
    message sent, and it carries the list that holds [a.txt]. *)
Lemma UPDATE_FILES_payload_is_object_witness :
  let evs := [MkdirFilesDirDone None None; ServerListening "0.0.0.0"; Connect 1; Connect 2;
              FsAnswer 0 None (Some ["a.txt"]) None sample_statSync; REQUEST_UPDATE 1] in
  let m := (2%nat, ("UPDATE_FILES",
                    JSON_stringify {[ 0%nat := {| e_name := "a.txt"; e_type := "f";
                                                  e_size := 10 |} ]})) in
  emitted (steps sample_config (λ s, s) (λ _, "application/octet-stream") evs init) !! 1%nat
  = Some m
  ∧ sent_in_step sample_config (λ s, s) (λ _, "application/octet-stream") evs 1 m.
Proof.
  assert (H : emitted (steps sample_config (λ s, s) (λ _, "application/octet-stream")
                         [MkdirFilesDirDone None None; ServerListening "0.0.0.0";
                          Connect 1; Connect 2;
                          FsAnswer 0 None (Some ["a.txt"]) None sample_statSync;
                          REQUEST_UPDATE 1] init) !! 1%nat
              = Some (2%nat, ("UPDATE_FILES",
                              JSON_stringify {[ 0%nat := {| e_name := "a.txt"; e_type := "f";
                                                            e_size := 10 |} ]})))
    by (vm_compute; reflexivity).
  split; [exact H|].
  exact (UPDATE_FILES_payload_is_object sample_config (λ s, s) (λ _, "application/octet-stream")
           _ 1 _ H).
Defined.

(** C5, the claim as stated fails: after the rebuild that lists [a.txt], a
    [REQUEST_UPDATE] sends a payload that opens with a brace and names its
    one member "0"; no array serialises to it. *)
Lemma UPDATE_FILES_payload_is_no_array :
  let payload := "{" +:+ quote "0" +:+ ":{" +:+ quote "name" +:+ ":" +:+ quote "a.txt" +:+ ","
                 +:+ quote "type" +:+ ":" +:+ quote "f" +:+ ","
                 +:+ quote "size" +:+ ":10}}" in
  emitted (sample_steps [REQUEST_UPDATE 1] listed)
  = [(1%nat, ("UPDATE_FILES", payload)); (2%nat, ("UPDATE_FILES", payload))]
  ∧ ∀ items : list Json, stringify (JArray items) ≠ payload.
Proof.
  split; [vm_compute; reflexivity|].
  intros items. simpl. discriminate.
Qed.

(** * Further properties *)

(** ** [debounce] *)

Section Debounce.
Context (config : Config) (unescape mime_lookup : string → string).

(** One call of a debounced function whose timer, if any, is the only one
    pending. *)
Lemma debounced_call_spec (w : World) (c : nat) (cb : option Callback) (wait : N)
    (immediate : bool) (timeout : option nat) :
  closure_is w c (Some (FnRun cb)) wait immediate timeout →
  (timeout = None ∧ timers w = []
   ∨ ∃ id due, timeout = Some id
               ∧ timers w = [{| t_id := id; t_due := due; t_closure := c |}]) →
  let w' := turn (debounced config c) w in
  closure_is w' c (Some (FnRun cb)) wait immediate (Some (next_timer w))
  ∧ timers w' = [{| t_id := next_timer w; t_due := clock w + wait; t_closure := c |}]
  ∧ clock w' = clock w
  ∧ emitted w' = emitted w
  ∧ if immediate && bool_decide (timeout = None)
    then rebuilds w' = rebuilds w ++ [clock w] ∧ pending w' = pending w ++ [KFill cb]
    else rebuilds w' = rebuilds w ∧ pending w' = pending w ∧ fileList w' = fileList w.
Proof.
  unfold closure_is. intros Hc Ht. unfold turn, debounced. unfold_M. simpl. rewrite Hc. simpl.
  destruct Ht as [[-> Ht]|(id & due & -> & Ht)]; simpl; rewrite Ht; simpl;
    rewrite ?bool_decide_eq_true_2 by done; simpl;
    destruct immediate; simpl; rewrite list_lookup_alter_eq, Hc; simpl;
    repeat split; try done.
  apply rebuilds_snoc.
Qed.

Lemma debounce_makes_closure (w0 : World) (func : option JsFun) (wait : N) (immediate : bool) :
  let w1 := world_of (debounce func wait immediate w0) in
  closure_is w1 (length (closures w0)) func wait immediate None
  ∧ timers w1 = timers w0 ∧ clock w1 = clock w0 ∧ rebuilds w1 = rebuilds w0
  ∧ pending w1 = pending w0 ∧ fileList w1 = fileList w0 ∧ emitted w1 = emitted w0.
Proof.
  unfold closure_is. simpl. split; [|done].
  rewrite lookup_app_r by done. by rewrite Nat.sub_diag.
Qed.

(** Before a timer is due the passing of time fires nothing. *)
Lemma fire_due_early (now : N) (w : World) :
  Forall (λ t, now < t_due t) (timers w) → fire_due config now w = set_clock now w.
Proof.
  intros Hdue. unfold fire_due, due_timers.
  assert (Hnone : List.filter (λ t, t_due t <=? now) (timers w) = []).
  { induction Hdue as [|t ts Ht _ IH]; [done|]. simpl.
    destruct (N.leb_spec (t_due t) now); [lia|done]. }
  by rewrite Hnone.
Qed.

(** Calls after the first, each of them before the timer is due: the
    timer is replaced each time and nothing runs. *)
Lemma calls_after_first (c : nat) (cb : option Callback) (wait : N) (immediate : bool)
    (gaps : list N) : ∀ w : World,
  Forall (λ gap, gap < wait) gaps →
  (∃ id, closure_is w c (Some (FnRun cb)) wait immediate (Some id)
         ∧ timers w = [{| t_id := id; t_due := clock w + wait; t_closure := c |}]) →
  let w' := calls config c gaps w in
  (∃ id, closure_is w' c (Some (FnRun cb)) wait immediate (Some id)
         ∧ timers w' = [{| t_id := id; t_due := clock w' + wait; t_closure := c |}])
  ∧ clock w' = clock w + foldr N.add 0 gaps
  ∧ rebuilds w' = rebuilds w ∧ pending w' = pending w ∧ fileList w' = fileList w
  ∧ emitted w' = emitted w.
Proof.
  induction gaps as [|gap gaps IH]; intros w Hgaps (id & Hc & Ht); simpl.
  - split; [by exists id|]. rewrite N.add_0_r. done.
  - apply Forall_cons in Hgaps as [Hgap Hgaps].
    rewrite fire_due_early by (rewrite Ht; apply Forall_singleton; simpl; lia).
    set (w1 := set_clock (clock w + gap) w).
    destruct (debounced_call_spec w1 c cb wait immediate (Some id)) as (Hc' & Ht' & Hk & He & Hr).
    { exact Hc. }
    { right. by exists id, (clock w + wait). }
    rewrite andb_false_r in Hr. destruct Hr as (Hr & Hp & Hf).
    destruct (IH (turn (debounced config c) w1) Hgaps) as (Hex & Hk2 & Hr2 & Hp2 & Hf2 & He2).
    { exists (next_timer w1). split; [exact Hc'|]. by rewrite Ht', Hk. }
    split; [exact Hex|]. rewrite Hk2, Hk, Hr2, Hr, Hp2, Hp, Hf2, Hf, He2, He.
    simpl. split; [lia|done].
Qed.

(** X1. A function made by [debounce(func, wait)] and called one or more
    times, each call less than [wait] after the one before: when the calls
    are over, [func] has not run, and one timer is pending, due [wait]
    after the last call. *)
Theorem debounce_trailing_edge (cb : option Callback) (wait gap : N) (gaps : list N)
    (w0 : World) :
  timers w0 = [] →
  Forall (λ gap, gap < wait) gaps →
  let c := length (closures w0) in
  let w1 := world_of (debounce (Some (FnRun cb)) wait false w0) in
  let w2 := calls config c (gap :: gaps) w1 in
  (∃ id, closure_is w2 c (Some (FnRun cb)) wait false (Some id)
         ∧ timers w2 = [{| t_id := id; t_due := clock w2 + wait; t_closure := c |}])
  ∧ clock w2 = clock w0 + foldr N.add 0 (gap :: gaps)
  ∧ rebuilds w2 = rebuilds w0 ∧ pending w2 = pending w0 ∧ fileList w2 = fileList w0
  ∧ emitted w2 = emitted w0.
Proof.
  intros Ht0 Hgaps c w1 w2.
  destruct (debounce_makes_closure w0 (Some (FnRun cb)) wait false)
    as (Hc1 & Ht1 & Hk1 & Hr1 & Hp1 & Hf1 & He1). fold c w1 in Hc1, Ht1, Hk1, Hr1, Hp1, Hf1, He1.
  assert (Hfire : fire_due config (clock w1 + gap) w1 = set_clock (clock w1 + gap) w1).
  { apply fire_due_early. rewrite Ht1, Ht0. constructor. }
  set (wa := set_clock (clock w1 + gap) w1) in Hfire.
  destruct (debounced_call_spec wa c cb wait false None) as (Hc' & Ht' & Hk & He & Hr & Hp & Hf).
  { exact Hc1. }
  { left. split; [done|]. transitivity (timers w1); [done|by rewrite Ht1]. }
  destruct (calls_after_first c cb wait false gaps (turn (debounced config c) wa) Hgaps)
    as (Hex & Hk2 & Hr2 & Hp2 & Hf2 & He2).
  { exists (next_timer wa). split; [exact Hc'|]. by rewrite Ht', Hk. }
  assert (Hw2 : w2 = calls config c gaps (turn (debounced config c) wa)).
  { unfold w2. cbn [calls]. by rewrite Hfire. }
  rewrite Hw2. split; [exact Hex|].
  assert (Hwa : clock wa = clock w1 + gap ∧ rebuilds wa = rebuilds w1
                ∧ pending wa = pending w1 ∧ fileList wa = fileList w1
                ∧ emitted wa = emitted w1) by done.
  destruct Hwa as (Ha1 & Ha2 & Ha3 & Ha4 & Ha5).
  rewrite Hk2, Hk, Hr2, Hr, Hp2, Hp, Hf2, Hf, He2, He, Ha1, Ha2, Ha3, Ha4, Ha5.
  rewrite Hk1, Hr1, Hp1, Hf1, He1. simpl. split; [lia|done].
Qed.

(** X3. With [immediate] set, the first of a series of calls, each less
    than [wait] after the one before, runs [func] at once; the calls after
    it run nothing and only move the timer on, which is again due [wait]
    after the last call. *)
Theorem debounce_leading_edge (cb : option Callback) (wait gap : N) (gaps : list N)
    (w0 : World) :
  timers w0 = [] →
  Forall (λ gap, gap < wait) gaps →
  let c := length (closures w0) in
  let w1 := world_of (debounce (Some (FnRun cb)) wait true w0) in
  let w2 := calls config c (gap :: gaps) w1 in
  (∃ id, closure_is w2 c (Some (FnRun cb)) wait true (Some id)
         ∧ timers w2 = [{| t_id := id; t_due := clock w2 + wait; t_closure := c |}])
  ∧ clock w2 = clock w0 + foldr N.add 0 (gap :: gaps)
  ∧ rebuilds w2 = rebuilds w0 ++ [clock w0 + gap]
  ∧ pending w2 = pending w0 ++ [KFill cb]
  ∧ emitted w2 = emitted w0.
Proof.
  intros Ht0 Hgaps c w1 w2.
  destruct (debounce_makes_closure w0 (Some (FnRun cb)) wait true)
    as (Hc1 & Ht1 & Hk1 & Hr1 & Hp1 & Hf1 & He1). fold c w1 in Hc1, Ht1, Hk1, Hr1, Hp1, Hf1, He1.
  assert (Hfire : fire_due config (clock w1 + gap) w1 = set_clock (clock w1 + gap) w1).
  { apply fire_due_early. rewrite Ht1, Ht0. constructor. }
  set (wa := set_clock (clock w1 + gap) w1) in Hfire.
  destruct (debounced_call_spec wa c cb wait true None) as (Hc' & Ht' & Hk & He & Hr & Hp).
  { exact Hc1. }
  { left. split; [done|]. transitivity (timers w1); [done|by rewrite Ht1]. }
  destruct (calls_after_first c cb wait true gaps (turn (debounced config c) wa) Hgaps)
    as (Hex & Hk2 & Hr2 & Hp2 & Hf2 & He2).
  { exists (next_timer wa). split; [exact Hc'|]. by rewrite Ht', Hk. }
  assert (Hw2 : w2 = calls config c gaps (turn (debounced config c) wa)).
  { unfold w2. cbn [calls]. by rewrite Hfire. }
  rewrite Hw2. split; [exact Hex|].
  assert (Hwa : clock wa = clock w1 + gap ∧ rebuilds wa = rebuilds w1
                ∧ pending wa = pending w1 ∧ emitted wa = emitted w1) by done.
  destruct Hwa as (Ha1 & Ha2 & Ha3 & Ha5).
  rewrite Hk2, Hk, Hr2, Hr, Hp2, Hp, He2, He, Ha1, Ha2, Ha3, Ha5.
  rewrite Hk1, Hr1, Hp1, He1. simpl. split; [lia|done].
Qed.

(** X2. When the timer of a debounced function is the only one pending: it
    cannot fire before it is due; when it fires, the closure forgets it and,
    unless [immediate] was set, [func] runs, now and once. *)
Theorem debounce_timer_fires (t : Timer) (cb : option Callback) (wait : N)
    (immediate : bool) (w : World) :
  timers w = [t] →
  closure_is w (t_closure t) (Some (FnRun cb)) wait immediate (Some (t_id t)) →
  let w' := step config unescape mime_lookup (TimerFires (t_id t)) w in
  if t_due t <=? clock w then
    timers w' = []
    ∧ closure_is w' (t_closure t) (Some (FnRun cb)) wait immediate None
    ∧ emitted w' = emitted w
    ∧ if immediate then rebuilds w' = rebuilds w ∧ pending w' = pending w
      else rebuilds w' = rebuilds w ++ [clock w] ∧ pending w' = pending w ++ [KFill cb]
  else w' = w.
Proof.
  unfold closure_is. intros Ht Hc. cbn [step]. rewrite Ht. simpl.
  rewrite bool_decide_eq_true_2 by done.
  destruct (t_due t <=? clock w); [|done]. simpl.
  unfold turn, later. unfold_M. simpl. rewrite Hc. simpl.
  destruct immediate; simpl; rewrite list_lookup_alter_eq, Hc; simpl; repeat split; try done.
  apply rebuilds_snoc.
Qed.
End Debounce.

(** ** The server sets no timer *)

Create HintDb keep_timers discriminated.

Section NoTimer.
Context (config : Config) (unescape mime_lookup : string → string).

Local Abbreviation keeps_t := (preserves no_timer).

Lemma no_timer_frame w w' :
  timers w' = timers w → closures w' = closures w → no_timer w → no_timer w'.
Proof. intros Ht Hc [H1 H2]. split; [by rewrite Ht|by rewrite Hc]. Qed.

Lemma keeps_t_modify (f : World → World) :
  (∀ w, timers (f w) = timers w ∧ closures (f w) = closures w) → keeps_t (modify f).
Proof. intros Hf w Hw. simpl. destruct (Hf w). by eapply no_timer_frame. Qed.

Hint Resolve preserves_mret preserves_throw preserves_bind preserves_try_catch
  preserves_get preserves_if keeps_t_modify : keep_timers.
Hint Extern 1 (∀ w, timers _ = timers w ∧ closures _ = closures w) =>
  (intros; split; reflexivity) : keep_timers.

Ltac keep_timers_tac := eauto 20 with keep_timers.

Lemma keeps_t_log msg : keeps_t (log msg).
Proof. unfold log. keep_timers_tac. Qed.
Hint Resolve keeps_t_log : keep_timers.

Lemma keeps_t_handleError err : keeps_t (handleError err).
Proof. unfold handleError. keep_timers_tac. Qed.
Hint Resolve keeps_t_handleError : keep_timers.

Lemma keeps_t_fs_call c : keeps_t (fs_call c).
Proof. unfold fs_call. keep_timers_tac. Qed.

Lemma keeps_t_fs_async c k : keeps_t (fs_async c k).
Proof. unfold fs_async. keep_timers_tac. Qed.

Lemma keeps_t_res_op socket op : keeps_t (res_op socket op).
Proof. unfold res_op. keep_timers_tac. Qed.

Lemma keeps_t_SendUpdate : keeps_t SendUpdate.
Proof. unfold SendUpdate, io_sockets_emit. keep_timers_tac. Qed.

Hint Resolve keeps_t_fs_call keeps_t_fs_async keeps_t_res_op keeps_t_SendUpdate : keep_timers.

Lemma keeps_t_uncaughtException err : keeps_t (uncaughtException err).
Proof. unfold uncaughtException. keep_timers_tac. Qed.

Lemma turn_keeps_t (m : M unit) w : keeps_t m → no_timer w → no_timer (turn m w).
Proof.
  intros Hm Hw. specialize (Hm w Hw). unfold turn.
  destruct (m w) as [a w'|e w']; simpl in *; [done|].
  by apply keeps_t_uncaughtException.
Qed.

Lemma keeps_t_run callback : keeps_t (run config callback).
Proof. unfold run, Date_now. keep_timers_tac. Qed.

(** The closure that [prepareFileList] makes wraps [undefined]. *)
Lemma keeps_t_prepareFileList callback : keeps_t (prepareFileList config callback).
Proof.
  intros w [Ht Hc]. split; simpl; [done|].
  apply Forall_app. split; [done|]. by repeat constructor.
Qed.

Lemma keeps_t_readdir_callback callback err files statSync :
  keeps_t (readdir_callback config callback err files statSync).
Proof.
  unfold readdir_callback. apply preserves_bind; [destruct err; keep_timers_tac|].
  intros _. destruct files as [files|]; [|apply preserves_throw].
  apply preserves_bind.
  - intros w Hw.
    destruct (fill_loop_spec config statSync files 0 None w) as (w' & -> & Hfills & _).
    simpl. eapply no_timer_frame; [| |exact Hw]; rewrite Hfills; by destruct w.
  - intros _. destruct callback as [[]|]; keep_timers_tac.
Qed.

Lemma keeps_t_stat_callback path mimeType socket err stats :
  keeps_t (stat_callback path mimeType socket err stats).
Proof. unfold stat_callback. destruct err, stats; keep_timers_tac. Qed.

Lemma keeps_t_delete_callback url socket err statSync :
  keeps_t (delete_callback config unescape url socket err statSync).
Proof.
  unfold delete_callback, statSync_m. destruct err; [keep_timers_tac|].
  apply preserves_bind; [keep_timers_tac|]. intros _.
  apply preserves_try_catch; [|keep_timers_tac].
  destruct (statSync _) as [e|stats]; [keep_timers_tac|].
  apply preserves_bind; [keep_timers_tac|]. intros s.
  destruct (isFile s), (isDirectory s); keep_timers_tac.
Qed.

Lemma keeps_t_continue k err files stats statSync :
  keeps_t (continue config unescape k err files stats statSync).
Proof.
  destruct k; cbn [continue];
    [apply keeps_t_readdir_callback|apply keeps_t_delete_callback
    |apply keeps_t_stat_callback|unfold mkdir_callback; destruct err; keep_timers_tac].
Qed.

Lemma step_no_timer ev w :
  no_timer w → no_timer (step config unescape mime_lookup ev w).
Proof.
  intros Hw.
  assert (Hset : ∀ w', timers w' = timers w → closures w' = closures w → no_timer w')
    by (intros; by eapply no_timer_frame).
  assert (Hif : ∀ (b : bool) (m : M unit), keeps_t m → no_timer (if b then turn m w else w))
    by (intros [] m Hm; [by apply turn_keeps_t|done]).
  destruct ev; cbn [step].
  - by apply Hset.
  - apply Hif. unfold mkdir_filesDir_callback.
    destruct err as [e|], ssl as [[e'|]|]; keep_timers_tac.
  - destruct (bool_decide _); [|done]. apply turn_keeps_t; [|by apply Hset].
    unfold on_listening, createWatcher, setupSockets.
    apply preserves_bind; [keep_timers_tac|]. intros _.
    apply preserves_bind; [keep_timers_tac|]. intros _.
    apply preserves_bind; [keep_timers_tac|]. intros _.
    apply preserves_bind; [apply keeps_t_prepareFileList|]. intros _.
    keep_timers_tac.
  - destruct (bool_decide _); [|done]. apply turn_keeps_t; [|by apply Hset].
    unfold on_error. keep_timers_tac.
  - apply Hif. unfold watch_callback.
    destruct (_ || _); [apply keeps_t_prepareFileList|apply preserves_mret].
  - destruct (pending w !! k) as [c|]; [|done].
    apply turn_keeps_t; [apply keeps_t_continue|by apply Hset].
  - destruct (_ && _); [by apply Hset|done].
  - by apply Hset.
  - apply Hif. unfold on_REQUEST_UPDATE. keep_timers_tac.
  - apply Hif. unfold on_CREATE_FOLDER. keep_timers_tac.
  - apply Hif. unfold handleFileRequest. keep_timers_tac.
  - apply Hif. unfold handleDeleteRequest. keep_timers_tac.
  - apply Hif. unfold handleUploadRequest. keep_timers_tac.
  - apply Hif. unfold form_fileBegin. keep_timers_tac.
  - apply Hif. unfold form_end. keep_timers_tac.
  - apply Hif. unfold form_error. keep_timers_tac.
  - destruct Hw as [Ht Hc]. rewrite Ht. simpl. by split.
Qed.

(** X4. Whatever happens, the server never has a timer pending, and every
    closure it has made with [debounce] wraps [undefined]: no rebuild is
    ever put off, and no function made by [debounce] is ever called. *)
Theorem server_never_sets_a_timer (evs : list Event) :
  no_timer (steps config unescape mime_lookup evs init).
Proof.
  assert (H : ∀ w, no_timer w → no_timer (steps config unescape mime_lookup evs w)).
  { induction evs as [|ev evs IH]; intros w Hw; simpl; [done|].
    apply IH. by apply step_no_timer. }
  apply H. split; [done|constructor].
Qed.
End NoTimer.

(** ** What a rebuild leaves in [fileList] *)

Section Carried.
Context (config : Config) (statSync : string → Error + Stats).

Lemma carry_step_ok type name :
  type_ok type → type_ok (carry_step statSync (filesDir config) type name).
Proof.
  unfold carry_step, type_ok. intros Ht.
  destruct (statSync _) as [e|stats]; [done|].
  destruct (isDirectory stats); [auto|]. destruct (isFile stats); auto.
Qed.

Lemma fill_step_exact i name type w :
  type_ok type →
  ∃ w', fill_step config statSync i name type w
        = Ok (carry_step statSync (filesDir config) type name) w'
    ∧ (∀ j, j ≠ i → fileList w' !! j = fileList w !! j)
    ∧ fileList w' !! i
      = match statSync (filesDir config +:+ name) with
        | inl _ => fileList w !! i
        | inr stats =>
            match carry_step statSync (filesDir config) type name with
            | Some t => Some {| e_name := name; e_type := t; e_size := st_size stats |}
            | None => fileList w !! i
            end
        end.
Proof.
  intros Ht. unfold fill_step, carry_step.
  destruct (statSync (filesDir config +:+ name)) as [e|stats].
  - unfold_M. rewrite handleError_eq. eexists. split; [reflexivity|]. done.
  - destruct (isDirectory stats), (isFile stats); simpl; unfold_M; simpl;
      try (eexists; split; [reflexivity|]; simpl;
           split; [intros j Hj; by rewrite lookup_insert_ne|by rewrite lookup_insert_eq]).
    destruct Ht as [->|[->| ->]]; simpl;
      eexists; (split; [reflexivity|]); simpl;
      (split; [intros j Hj; by rewrite ?lookup_insert_ne|by rewrite ?lookup_insert_eq]).
Qed.

Lemma fill_loop_exact files : ∀ i type w,
  type_ok type →
  ∃ w', fill_loop config statSync i files type w = Ok tt w'
    ∧ ∀ k name, files !! k = Some name →
      fileList w' !! (i + k)%nat
      = match statSync (filesDir config +:+ name) with
        | inl _ => fileList w !! (i + k)%nat
        | inr stats =>
            match foldl (carry_step statSync (filesDir config)) type (take (S k) files) with
            | Some t => Some {| e_name := name; e_type := t; e_size := st_size stats |}
            | None => fileList w !! (i + k)%nat
            end
        end.
Proof.
  induction files as [|name files IH]; intros i type w Ht; simpl.
  - exists w. done.
  - destruct (fill_step_exact i name type w Ht) as (w1 & Hstep & Hne & Hat).
    destruct (fill_loop_spec config statSync files (S i)
                (carry_step statSync (filesDir config) type name) w1)
      as (w' & Hloop & _ & Hout & _).
    destruct (IH (S i) _ w1 (carry_step_ok type name Ht)) as (w'' & Hloop' & Hin).
    rewrite Hloop in Hloop'. injection Hloop' as <-.
    exists w'. unfold_M. rewrite Hstep. split; [exact Hloop|].
    intros [|k] name' Hk; simpl in Hk.
    + injection Hk as <-. rewrite Nat.add_0_r, Hout by lia. rewrite Hat.
      destruct (statSync (filesDir config +:+ name)); [done|]. by rewrite take_0.
    + replace (i + S k)%nat with (S i + k)%nat by lia.
      rewrite (Hin k name' Hk), Hne by lia. done.
Qed.
End Carried.

Lemma uncaughtException_eq err w :
  uncaughtException err w
  = Ok tt (set_console (console w ++ ["=============== Uncaught exception! ==============="]
                        ++ error_lines err) w).
Proof.
  unfold uncaughtException, handleError, error_lines. unfold_M.
  repeat case_bool_decide; destruct w; simpl; rewrite ?app_nil_r, <-?app_assoc; done.
Qed.

Section RebuildOutcome.
Context (config : Config).

(** X5. What the callback of [fs.readdir] leaves in [fileList], index by
    index, in whatever state it runs. Under the index of a name of the
    listing whose [statSync] succeeds it stores the name, the reported size,
    and as type that of the last entry up to and including this one that is
    a plain file or a directory (so a plain file is stored as "f", a
    directory as "d", and a pipe or socket gets the type of the entry
    before it). Everywhere else, that is beyond the listing, where
    [statSync] throws, and where no type has been met yet, the index keeps
    what it held when the callback began: nothing, unless the callback of
    another rebuild has filled the object since [run] made it. *)
Theorem rebuild_stores_carried_types (callback : option Callback) (err : option Error)
    (files : list string) (statSync : string → Error + Stats) (w : World) (k : nat) :
  let w' := turn (readdir_callback config callback err (Some files) statSync) w in
  fileList w' !! k
  = match files !! k with
    | None => fileList w !! k
    | Some name =>
        match statSync (filesDir config +:+ name) with
        | inl _ => fileList w !! k
        | inr stats =>
            match carried statSync (filesDir config) (take (S k) files) with
            | Some t => Some {| e_name := name; e_type := t; e_size := st_size stats |}
            | None => fileList w !! k
            end
        end
    end.
Proof.
  intros w'.
  assert (H1 : ∃ w1, (match err with Some e => handleError e | None => mret tt end) w
                     = Ok tt w1 ∧ fileList w1 = fileList w).
  { destruct err as [e|]; [|by exists w]. rewrite handleError_eq. eexists. done. }
  destruct H1 as (w1 & H1 & Hw1).
  destruct (fill_loop_exact config statSync files 0 None w1) as (wf & Hloop & Hin);
    [by left|].
  destruct (fill_loop_spec config statSync files 0 None w1) as (wf' & Hloop' & _ & Hout & _).
  rewrite Hloop in Hloop'. injection Hloop' as <-.
  assert (Hw' : fileList w' = fileList wf).
  { unfold w', turn, readdir_callback. unfold_M. rewrite H1, Hloop.
    destruct callback as [[]|]; done. }
  rewrite Hw'. destruct (files !! k) as [name|] eqn:Hk.
  - pose proof (Hin k name Hk) as Hat. change (0 + k)%nat with k in Hat.
    rewrite Hat, Hw1. done.
  - apply lookup_ge_None in Hk. rewrite Hout by (right; simpl; lia). by rewrite Hw1.
Qed.

(** X6. A rebuild ends with one broadcast of the list it has just filled
    when it was started with a callback, as the watcher starts it, and with
    none when it was started without, as at start-up. Either way nothing
    stays pending and no timer is set. *)
Theorem rebuild_ends_with_broadcast (callback : option Callback) (files : list string)
    (statSync : string → Error + Stats) (w : World) :
  let w' := turn (readdir_callback config callback None (Some files) statSync) w in
  emitted w' = emitted w ++ match callback with
                            | Some CbSendUpdate => broadcast w'
                            | None => []
                            end
  ∧ clients w' = clients w ∧ pending w' = pending w ∧ timers w' = timers w
  ∧ fs_log w' = fs_log w ∧ http w' = http w.
Proof.
  intros w'.
  destruct (fill_loop_spec config statSync files 0 None w) as (wf & Hloop & Hfills & _).
  assert (Hframe : emitted wf = emitted w ∧ clients wf = clients w ∧ pending wf = pending w
                   ∧ timers wf = timers w ∧ fs_log wf = fs_log w ∧ http wf = http w).
  { rewrite Hfills. by destruct w. }
  destruct Hframe as (He & Hc & Hp & Ht & Hfs & Hh).
  unfold w', turn, readdir_callback. unfold_M. rewrite Hloop.
  destruct callback as [[]|]; simpl.
  - unfold broadcast. simpl. by rewrite He, Hc, Hp, Ht, Hfs, Hh.
  - by rewrite He, Hc, Hp, Ht, Hfs, Hh, app_nil_r.
Qed.

(** X7. When the listing itself fails, the callback logs the error and goes
    on to read [files.length] of the absent listing, which throws: the
    rebuild ends as an uncaught [TypeError], in whatever state the callback
    runs. Nothing but the log changes: [fileList] is left as it was (the
    empty object of [run], unless the callback of another rebuild has
    filled it since), and nothing is broadcast. *)
Theorem rebuild_with_failed_listing (callback : option Callback) (err : Error)
    (statSync : string → Error + Stats) (w : World) :
  let w' := turn (readdir_callback config callback (Some err) None statSync) w in
  readdir_callback config callback (Some err) None statSync w
  = Throw (TypeError_undefined "length") (set_console (console w ++ error_lines err) w)
  ∧ w' = set_console (console w ++ error_lines err
                      ++ ["=============== Uncaught exception! ==============="]
                      ++ error_lines (TypeError_undefined "length")) w
  ∧ fileList w' = fileList w
  ∧ emitted w' = emitted w.
Proof.
  intros w'.
  assert (Hcb : readdir_callback config callback (Some err) None statSync w
                = Throw (TypeError_undefined "length")
                        (set_console (console w ++ error_lines err) w)).
  { unfold readdir_callback. unfold_M. by rewrite handleError_eq. }
  split; [exact Hcb|].
  assert (Hw' : w' = set_console (console w ++ error_lines err
                        ++ ["=============== Uncaught exception! ==============="]
                        ++ error_lines (TypeError_undefined "length")) w).
  { unfold w', turn. rewrite Hcb, uncaughtException_eq. simpl.
    rewrite <-!app_assoc. by destruct w. }
  split; [exact Hw'|]. by rewrite Hw'.
Qed.
End RebuildOutcome.

(** ** Requests for files *)

Lemma substring_from_app (p s : string) (n : nat) :
  substring_from (String.length p + n) (p +:+ s) = substring_from n s.
Proof.
  unfold substring_from. rewrite string_length_app.
  replace (String.length p + String.length s - (String.length p + n))%nat
    with (String.length s - n)%nat by lia.
  induction p as [|c p IH]; [done|]. rewrite string_app_cons. simpl. exact IH.
Qed.

Lemma substring_from_0 (s : string) : substring_from 0 s = s.
Proof. unfold substring_from. rewrite Nat.sub_0_r. apply substring_whole. Qed.

Section Requests.
Context (config : Config) (unescape mime_lookup : string → string).

(** X8. A request for [/files/<name>] stats the watched directory's path
    followed by the unescaped rest of the URL after
    [config.filesDir.length - 1] characters, which is not the length of
    [/files/] but that of the configured path less one. With a path of 8
    characters (such as [./files/]) the rest is the name; with a longer
    path the first characters of the name are cut off as well. *)
Theorem GET_files_cuts_by_filesDir_length (name socket : string) (w : World) :
  (8 ≤ String.length (filesDir config))%nat →
  ∃ path,
    handleFileRequest config unescape mime_lookup ("/files/" +:+ name) socket w
    = fs_async (Stat path) (KStat path (mime_lookup path) socket) w
    ∧ path = filesDir config
             +:+ unescape (substring_from (String.length (filesDir config) - 8) name)
    ∧ (String.length (filesDir config) = 8%nat → path = filesDir config +:+ unescape name).
Proof.
  intros Hlen. eexists. split; [|split; [reflexivity|]].
  - unfold handleFileRequest.
    replace (String.length (filesDir config) - 1)%nat
      with (String.length "/files/" + (String.length (filesDir config) - 8))%nat
      by (simpl; lia).
    rewrite substring_from_app. rewrite bool_decide_eq_false_2; [done|].
    destruct (filesDir config); [simpl in Hlen; lia|]. by rewrite string_app_cons.
  - intros ->. by rewrite substring_from_0.
Qed.

(** X9. A delete whose [statSync] succeeds: a plain file is unlinked, a
    directory is removed with [rmdir], anything else is left alone; in all
    three cases the answer is 200, given at once (the removal has no
    callback, so its outcome is never looked at), and nothing is sent to
    the sockets nor rebuilt by the handler. *)
Theorem delete_answers_200 (url socket : string) (statSync : string → Error + Stats)
    (stats : Stats) (w : World) :
  let path := filesDir config +:+ unescape (replace_prefix "/delete/" url) in
  statSync path = inr stats →
  ∃ w', delete_callback config unescape url socket None statSync w = Ok tt w'
      ∧ fs_log w' = fs_log w
                    ++ (if isFile stats
                        then [{| fs_at := clock w; fs_what := Unlink path; fs_then := None |}]
                        else if isDirectory stats
                        then [{| fs_at := clock w; fs_what := Rmdir path; fs_then := None |}]
                        else [])
      ∧ http w' = http w ++ [(socket, WriteHead 200 [("Content-Type", "text/html")]);
                             (socket, End)]
      ∧ console w' = console w ++ ["DEL:  " +:+ path]
      ∧ emitted w' = emitted w ∧ pending w' = pending w ∧ fileList w' = fileList w.
Proof.
  intros path Hstat. unfold delete_callback, statSync_m. fold path. unfold_M. simpl.
  rewrite Hstat. simpl.
  destruct (isFile stats); [|destruct (isDirectory stats)]; simpl;
    eexists; (split; [reflexivity|]); simpl; rewrite ?app_nil_r, <-?app_assoc; done.
Qed.

(** X10. An upload is answered 200 and the response ended as soon as the
    request arrives, before the form has reported anything. When the form
    reports its end or an error, in whatever state the server is by then,
    the response is left alone and the list is broadcast as it is at that
    moment: the handler starts no rebuild of its own. *)
Theorem upload_is_answered_at_once (socket : string) (outcome : option Error)
    (w w' : World) :
  let w1 := turn (handleUploadRequest "/upload" socket) w in
  let w2 := turn (match outcome with None => form_end | Some e => form_error e end) w' in
  w1 = set_http (http w ++ [(socket, WriteHead 200 [("Content-Type", "text/html")]);
                            (socket, End)]) w
  ∧ http w2 = http w'
  ∧ emitted w2 = emitted w' ++ broadcast w'
  ∧ fileList w2 = fileList w' ∧ rebuilds w2 = rebuilds w' ∧ pending w2 = pending w'
  ∧ fs_log w2 = fs_log w' ∧ timers w2 = timers w'.
Proof.
  intros w1 w2. split.
  { unfold w1, turn, handleUploadRequest, res_op. unfold_M. simpl.
    destruct w. simpl. by rewrite <-app_assoc. }
  unfold w2, turn. destruct outcome as [e|].
  - unfold form_error. unfold_M. rewrite handleError_eq. by simpl.
  - unfold form_end. rewrite SendUpdate_eq. by simpl.
Qed.

(** X11. [CREATE_FOLDER] asks for the directory and sends nothing to any
    socket, neither when it is asked nor when [mkdir] answers: a failure is
    logged on the server and the client that asked is not told. The list
    changes only if the watcher reports the new directory. *)
Theorem CREATE_FOLDER_sends_nothing (socket : nat) (name : string) (err : option Error)
    (w : World) :
  let w1 := turn (on_CREATE_FOLDER config socket name) w in
  let w2 := turn (mkdir_callback err) w1 in
  emitted w1 = emitted w ∧ emitted w2 = emitted w
  ∧ fileList w2 = fileList w ∧ rebuilds w2 = rebuilds w
  ∧ console w2 = console w ++ match err with Some e => error_lines e | None => [] end.
Proof.
  intros w1 w2. unfold w2, w1, turn, mkdir_callback. simpl.
  destruct err as [e|]; [rewrite handleError_eq|]; simpl; rewrite ?app_nil_r.
  - repeat split; try done. unfold rebuilds. simpl. by rewrite omap_app, app_nil_r.
  - repeat split; try done. unfold rebuilds. simpl. by rewrite omap_app, app_nil_r.
Qed.
End Requests.

(** ** Start-up that stops before a server is made *)

Section EarlyStop.
Context (config : Config) (unescape mime_lookup : string → string).

(** X12. With SSL asked for and a key or certificate that cannot be read,
    the [catch] calls [logIt], which is defined nowhere: a
    [ReferenceError] leaves the callback, the read error itself is never
    logged, no server is made, and nothing keeps the process running. *)
Theorem unreadable_ssl_files_end_in_ReferenceError (mkdir_err : option Error)
    (read_err : Error) :
  mkdir_err = None ∨ err_code <$> mkdir_err = Some "EEXIST" →
  mkdir_filesDir_callback mkdir_err (Some (Some read_err)) init
  = Throw (ReferenceError "logIt") init
  ∧ (let w := step config unescape mime_lookup
                   (MkdirFilesDirDone mkdir_err (Some (Some read_err))) init in
     w = set_console ["=============== Uncaught exception! ===============";
                      "logIt is not defined"; "ReferenceError: logIt is not defined"] init
     ∧ running w = false).
Proof.
  intros Herr.
  assert (Hok : bool_decide (mkdir_err = None)
                || bool_decide (err_code <$> mkdir_err = Some "EEXIST") = true).
  { destruct Herr as [H|H]; rewrite (bool_decide_eq_true_2 _ H); [done|apply orb_true_r]. }
  assert (Hcb : mkdir_filesDir_callback mkdir_err (Some (Some read_err)) init
                = Throw (ReferenceError "logIt") init).
  { unfold mkdir_filesDir_callback. rewrite Hok. done. }
  split; [exact Hcb|]. cbv zeta. cbn [step]. simpl bool_decide. cbv iota.
  unfold turn. rewrite Hcb. done.
Qed.

(** X13. When the directory for the files cannot be made, for a reason
    other than its being there already, the error is logged and that is
    all: no server is made, with or without SSL, and nothing keeps the
    process running. *)
Theorem mkdir_failure_makes_no_server (err : Error) (ssl : option (option Error)) :
  err_code err ≠ "EEXIST" →
  let w := step config unescape mime_lookup (MkdirFilesDirDone (Some err) ssl) init in
  w = set_console (error_lines err) init ∧ running w = false.
Proof.
  intros Hcode. cbv zeta. cbn [step]. simpl bool_decide. cbv iota.
  unfold turn, mkdir_filesDir_callback. simpl.
  rewrite bool_decide_eq_false_2 by congruence. by rewrite handleError_eq.
Qed.
End EarlyStop.

(** ** Time stamps *)

Lemma zero_pad_two_digits (n : N) : n < 100 → zero_pad n = two_digits n.
Proof.
  intros Hn. unfold zero_pad, two_digits.
  destruct (N.ltb_spec n 10) as [Hlt|Hge].
  - rewrite (N.div_small n 10), (N.mod_small n 10) by done.
    unfold pretty, pretty_N. case_decide as H0; [by subst|].
    rewrite pretty_N_go_step by lia.
    rewrite (N.div_small n 10), (N.mod_small n 10) by done. done.
  - assert (H0 : n `div` 100 = 0) by (by apply N.div_small).
    pose proof (mod_100_digits n) as [Hd Hm].
    rewrite (N.mod_small n 100) in Hd, Hm by done.
    unfold pretty, pretty_N. rewrite decide_False by lia.
    rewrite pretty_N_go_step by lia.
    rewrite pretty_N_go_step by (apply N.div_str_pos; lia).
    rewrite N.Div0.div_div. change (10 * 10) with 100. rewrite H0, pretty_N_go_0.
    by rewrite <-Hd.
Qed.

(** The time of day in a time stamp takes two digits for the hours, for
    the minutes and for the seconds; the date before it is month, day,
    year, the month counted from 1, none of them padded. *)
Lemma getTimestamp_two_digits (d : Date) :
  getHours d < 24 → getMinutes d < 60 → getSeconds d < 60 →
  getTimestamp d
  = pretty (getMonth d + 1) +:+ "/" +:+ pretty (getDate d) +:+ "/"
    +:+ pretty (getFullYear d) +:+ " "
    +:+ two_digits (getHours d) +:+ ":" +:+ two_digits (getMinutes d) +:+ ":"
    +:+ two_digits (getSeconds d) +:+ " ".
Proof.
  intros Hh Hm Hs. unfold getTimestamp. cbv zeta.
  rewrite !zero_pad_two_digits by lia. done.
Qed.

Lemma pretty_N_char_not_separator (x : N) :
  pretty_N_char x ≠ "/"%char ∧ pretty_N_char x ≠ " "%char.
Proof. unfold pretty_N_char. repeat case_match; split; discriminate. Qed.

Lemma free_of_pretty_N_go (c : ascii) (x : N) : ∀ s,
  (∀ y, pretty_N_char y ≠ c) → free_of c s → free_of c (pretty_N_go x s).
Proof.
  induction (N.lt_wf_0 x) as [x _ IH]; intros s Hc Hs.
  destruct (decide (x = 0)) as [->|Hx]; [by rewrite pretty_N_go_0|].
  rewrite pretty_N_go_step by lia. apply IH; [apply N.div_lt; lia|done|].
  simpl. split; [apply Hc|done].
Qed.

Lemma free_of_pretty (c : ascii) (n : N) :
  (∀ y, pretty_N_char y ≠ c) → free_of c (pretty n).
Proof.
  intros Hc. unfold pretty, pretty_N. case_decide.
  - simpl. split; [apply (Hc 0)|done].
  - by apply free_of_pretty_N_go.
Qed.

(** A string is cut at the first occurrence of a character in one way
    only. *)
Lemma cut_at_first (c : ascii) (a : string) : ∀ (a' r r' : string),
  free_of c a → free_of c a' →
  a +:+ String c r = a' +:+ String c r' → a = a' ∧ r = r'.
Proof.
  induction a as [|x a IH]; intros [|x' a'] r r' Ha Ha' Heq;
    rewrite ?string_app_cons, ?string_app_nil in Heq; simpl in Ha, Ha'.
  - by injection Heq.
  - injection Heq as -> _. by destruct Ha' as [? _].
  - injection Heq as -> _. by destruct Ha as [? _].
  - injection Heq as -> Heq. destruct Ha as [_ Ha], Ha' as [_ Ha'].
    destruct (IH a' r r' Ha Ha' Heq) as [-> ->]. done.
Qed.

Lemma two_digits_inj (n n' : N) : n < 100 → n' < 100 → two_digits n = two_digits n' → n = n'.
Proof.
  intros Hn Hn'. unfold two_digits. intros Heq. injection Heq as Hd Hm.
  apply pretty_N_char_inj in Hd, Hm;
    try (apply N.mod_lt; lia); try (apply N.Div0.div_lt_upper_bound; lia).
  rewrite (N.div_mod n 10), (N.div_mod n' 10) by lia. by rewrite Hd, Hm.
Qed.

(** X14. A line of the log determines the time it was written at, to the
    second, and the message: two lines are equal only when both are. *)
Theorem log_line_determines_time_and_message (d d' : Date) (msg msg' : string) :
  getHours d < 24 → getMinutes d < 60 → getSeconds d < 60 →
  getHours d' < 24 → getMinutes d' < 60 → getSeconds d' < 60 →
  log_line d msg = log_line d' msg' → d = d' ∧ msg = msg'.
Proof.
  intros Hh Hm Hs Hh' Hm' Hs'. unfold log_line.
  rewrite !getTimestamp_two_digits by done. rewrite !string_app_assoc.
  change ("/" +:+ ?s) with (String "/" s). change (" " +:+ ?s) with (String " " s).
  intros Heq.
  apply cut_at_first in Heq as [Hmonth Heq];
    try (apply free_of_pretty; intros y; apply pretty_N_char_not_separator).
  apply cut_at_first in Heq as [Hday Heq];
    try (apply free_of_pretty; intros y; apply pretty_N_char_not_separator).
  apply cut_at_first in Heq as [Hyear Heq];
    try (apply free_of_pretty; intros y; apply pretty_N_char_not_separator).
  unfold two_digits in Heq. rewrite !string_app_cons, !string_app_nil in Heq.
  injection Heq as Hh1 Hh2 Hm1 Hm2 Hs1 Hs2 Hmsg.
  assert (getHours d = getHours d').
  { apply two_digits_inj; [lia|lia|]. unfold two_digits. by rewrite Hh1, Hh2. }
  assert (getMinutes d = getMinutes d').
  { apply two_digits_inj; [lia|lia|]. unfold two_digits. by rewrite Hm1, Hm2. }
  assert (getSeconds d = getSeconds d').
  { apply two_digits_inj; [lia|lia|]. unfold two_digits. by rewrite Hs1, Hs2. }
  apply (inj pretty) in Hmonth, Hday, Hyear.
  split; [|done]. destruct d, d'. simpl in *. f_equal; lia.
Qed.

(** ** Resources *)

Section ResourceProperties.
Context (config : Config) (unescape mime_lookup : string → string) (inherited : string → bool).

Lemma resource_name (name : string) :
  substring_from (String.length resDir - 1) ("/res/" +:+ name) = name.
Proof.
  change (String.length resDir - 1)%nat with (String.length "/res/" + 0)%nat.
  rewrite substring_from_app. apply substring_from_0.
Qed.

(** What the callbacks of [fs.readFile] leave under a name: the object of
    the last one that brought its bytes. *)
Lemma reads_lookup (name : string) (answers : list ReadAnswer) : ∀ cache : Cache,
  reads unescape mime_lookup answers cache !! name
  = match latest_read name answers with
    | Some a =>
        Some (match ra_statSync a (unescape (resDir +:+ name)) with
              | inr stats => CResource (Some (ra_data a)) (Some (st_size stats))
                                       (Some (mime_lookup (unescape (resDir +:+ name))))
              | inl _ => CResource (Some (ra_data a)) None None
              end)
    | None => cache !! name
    end.
Proof.
  induction answers as [|a rest IH]; intros cache; [done|].
  cbn [latest_read].
  change (reads unescape mime_lookup (a :: rest) cache)
    with (reads unescape mime_lookup rest
            (readFile_cache unescape mime_lookup cache (ra_name a) (resDir +:+ ra_name a)
                            (ra_err a) (ra_data a) (ra_statSync a))).
  rewrite IH. destruct (latest_read name rest) as [b|]; [done|].
  unfold readFile_cache. case_bool_decide as Hname.
  - rewrite Hname. destruct (ra_err a); [done|].
    destruct (ra_statSync a _); by rewrite lookup_insert_eq.
  - destruct (ra_err a); [done|].
    destruct (ra_statSync a _); by rewrite lookup_insert_ne.
Qed.

(** X15. Once [fs.readFile] has brought the bytes of a resource, every
    later request for it is answered from [cache], with no call of [fs],
    whatever callbacks of [fs.readFile] have run in between and whatever
    has become of the file: when the size was taken in the last callback
    that brought its bytes, the answer is 200 with the type, the length and
    the bytes of that callback. *)
Theorem resource_is_served_from_cache (cache : Cache) (answers : list ReadAnswer)
    (a : ReadAnswer) (name socket : string) (stats : Stats) (w : World) :
  let resourceName := unescape name in
  let path := resDir +:+ resourceName in
  latest_read resourceName answers = Some a →
  ra_statSync a (unescape path) = inr stats →
  handleResourceRequest unescape inherited (reads unescape mime_lookup answers cache)
                        ("/res/" +:+ name) socket w
  = Ok (Answered [RWriteHead 200 [("Content-Type", Str (mime_lookup (unescape path)));
                                  ("Content-Length", Num (st_size stats));
                                  ("Cache-Control", Str "max-age=3600, public")];
                  REnd (Str (ra_data a))])
       (set_console (console w ++ ["SEND: " +:+ socket +:+ tab +:+ tab +:+ resourceName
                                   +:+ " (" +:+ convertToSI (st_size stats) +:+ ")"]) w).
Proof.
  intros resourceName path Hlatest Hstat.
  unfold handleResourceRequest. rewrite resource_name. fold resourceName.
  assert (Hget : cache_get inherited (reads unescape mime_lookup answers cache) resourceName
                 = Own (CResource (Some (ra_data a)) (Some (st_size stats))
                                  (Some (mime_lookup (unescape path))))).
  { unfold cache_get. rewrite reads_lookup, Hlatest. fold path. by rewrite Hstat. }
  rewrite Hget. unfold serve, cache_field. rewrite Hget. done.
Qed.

(** X16. When the file has been read but [fs.statSync] then throws, the
    callback ends in that error with the object already stored in [cache],
    its [data] set and nothing else. As long as this is the last callback
    that brought the bytes of the resource, whatever other callbacks have
    run since, every request for it is answered 200 with the bytes and with
    [undefined] for both the type and the length, and is logged with the
    size [undefined B]. *)
Theorem resource_is_half_cached_when_stat_throws (cache cache0 : Cache)
    (answers : list ReadAnswer) (a : ReadAnswer) (name socket socket' : string)
    (error : Error) (w w' : World) :
  let resourceName := unescape name in
  let path := resDir +:+ resourceName in
  latest_read resourceName answers = Some a →
  ra_statSync a (unescape path) = inl error →
  readFile_callback unescape mime_lookup inherited cache0 resourceName path socket None
                    (ra_data a) (ra_statSync a) w
  = Throw error w
  ∧ handleResourceRequest unescape inherited (reads unescape mime_lookup answers cache)
                          ("/res/" +:+ name) socket' w'
    = Ok (Answered [RWriteHead 200 [("Content-Type", Undefined);
                                    ("Content-Length", Undefined);
                                    ("Cache-Control", Str "max-age=3600, public")];
                    REnd (Str (ra_data a))])
         (set_console (console w' ++ ["SEND: " +:+ socket' +:+ tab +:+ tab +:+ resourceName
                                      +:+ " (undefined B)"]) w').
Proof.
  intros resourceName path Hlatest Hstat. split.
  - unfold readFile_callback. by rewrite Hstat.
  - unfold handleResourceRequest. rewrite resource_name. fold resourceName.
    assert (Hget : cache_get inherited (reads unescape mime_lookup answers cache) resourceName
                   = Own (CResource (Some (ra_data a)) None None)).
    { unfold cache_get. rewrite reads_lookup, Hlatest. fold path. by rewrite Hstat. }
    rewrite Hget. unfold serve, cache_field. rewrite Hget. done.
Qed.

(** X17. A resource that cannot be read is answered 404 and leaves
    [cache] as it was, so that the next request for it reads the file
    again. *)
Theorem unreadable_resource_is_not_cached (cache : Cache) (name data socket socket' : string)
    (statSync : string → Error + Stats) (err : Error) (w w' : World) :
  let resourceName := unescape name in
  let path := resDir +:+ resourceName in
  cache_get inherited cache resourceName = Missing →
  let cache' := readFile_cache unescape mime_lookup cache resourceName path (Some err) data
                               statSync in
  handleResourceRequest unescape inherited cache ("/res/" +:+ name) socket w
  = Ok (Reading resourceName path) w
  ∧ readFile_callback unescape mime_lookup inherited cache resourceName path socket (Some err)
                      data statSync w
    = Ok [RWriteHead 404 []; REnd Undefined] (set_console (console w ++ error_lines err) w)
  ∧ handleResourceRequest unescape inherited cache' ("/res/" +:+ name) socket' w'
    = Ok (Reading resourceName path) w'.
Proof.
  intros resourceName path Hmiss cache'.
  assert (Hreq : ∀ s v, handleResourceRequest unescape inherited cache ("/res/" +:+ name) s v
                        = Ok (Reading resourceName path) v).
  { intros s v. unfold handleResourceRequest. rewrite resource_name. fold resourceName.
    by rewrite Hmiss. }
  split; [apply Hreq|]. split; [|apply Hreq].
  unfold readFile_callback. unfold_M. by rewrite handleError_eq.
Qed.

(** X18. The name of a resource is the unescaped rest of the URL, put
    behind [./res/] as it is. A name that unescapes to [../] and a target
    makes the server read the target from its own directory, outside that
    of the resources: its source [server.js], for one. *)
Theorem resource_path_is_not_confined (cache : Cache) (name target socket : string)
    (w : World) :
  unescape name = "../" +:+ target →
  cache_get inherited cache (unescape name) = Missing →
  handleResourceRequest unescape inherited cache ("/res/" +:+ name) socket w
  = Ok (Reading ("../" +:+ target) ("./res/../" +:+ target)) w
  ∧ resolve ("./res/../" +:+ target) = resolve target.
Proof.
  intros Hname Hmiss. split.
  - unfold handleResourceRequest. rewrite resource_name, Hmiss, Hname. done.
  - unfold resolve. by rewrite walk_app.
Qed.

(** X19. What the router does with a request that none of its routes
    takes. A GET for an unknown URL is answered 404. A request with another
    method, but for a POST to [/upload], is logged and nothing more: its
    response is neither written nor ended. *)
Theorem onRequest_outside_the_routes (cache : Cache) (method url remoteAddress : string)
    (remotePort : N) (w : World) :
  let socket := remoteAddress +:+ ":" +:+ pretty remotePort in
  let line := "REQ:  " +:+ socket +:+ tab +:+ toUpperCase method +:+ tab +:+ url in
  let w' := set_console (console w ++ [line]) w in
  (toUpperCase method = "GET" →
   starts_with "/res/" url = false → starts_with "/files/" url = false →
   starts_with "/delete/" url = false → url ≠ "/" →
   onRequest config unescape mime_lookup inherited cache method url remoteAddress remotePort w
   = Ok (Answered [RWriteHead 404 []; REnd Undefined]) w')
  ∧ (toUpperCase method ≠ "GET" →
     toUpperCase method ≠ "POST" ∨ url ≠ "/upload" →
     onRequest config unescape mime_lookup inherited cache method url remoteAddress remotePort w
     = Ok Unanswered w').
Proof.
  intros socket line w'. split.
  - intros Hget Hres Hfiles Hdelete Hroot. unfold w', line, socket, onRequest. cbv zeta.
    rewrite Hget, Hres, Hfiles, Hdelete.
    rewrite (bool_decide_eq_false_2 (url = "/")) by done. done.
  - intros Hget Hpost. unfold w', line, socket, onRequest. cbv zeta.
    rewrite (bool_decide_eq_false_2 _ Hget).
    destruct Hpost as [Hpost|Hurl].
    + by rewrite (bool_decide_eq_false_2 _ Hpost).
    + rewrite (bool_decide_eq_false_2 _ Hurl), andb_false_r. done.
Qed.
End ResourceProperties.

(** ** Where an upload lands *)




(** ** From CREATE_FOLDER to the clients *)

Section Pipeline.
Context (config : Config) (unescape mime_lookup : string → string).

(** X21. A folder asked for with [CREATE_FOLDER] reaches the clients by way
    of the watcher: once [mkdir] has answered, the watcher has signalled
    the change and the listing that names the new directory has arrived,
    [fileList] holds it with the type "d" under its index in the listing,
    and this list has been pushed once to every connected socket. *)
Theorem created_folder_reaches_every_client (socket : nat) (name : string)
    (files : list string) (statSync : string → Error + Stats) (stats : Stats) (k : nat)
    (w : World) :
  sockets_ready w = true → socket ∈ clients w → watching w = true → pending w = [] →
  files !! k = Some name →
  statSync (filesDir config +:+ name) = inr stats → isDirectory stats = true →
  let w' := steps config unescape mime_lookup
              [CREATE_FOLDER socket name; FsAnswer 0 None None None statSync;
               FsWatch "rename" name; FsAnswer 0 None (Some files) None statSync] w in
  fileList w' !! k = Some {| e_name := name; e_type := "d"; e_size := st_size stats |}
  ∧ emitted w' = emitted w ++ broadcast w'
  ∧ clients w' = clients w
  ∧ pending w' = [].
Proof.
  intros Hready Hin Hwatch Hpending Hk Hstat Hdir w'.
  unfold w', steps. cbn [foldl]. unfold watching in Hwatch.
  set (w1 := step _ _ _ (CREATE_FOLDER socket name) w).
  assert (H1 : pending w1 = [KMkdir]
               ∧ existsb (λ c, match fs_what c with WatchDir _ => true | _ => false end)
                         (fs_log w1) = true
               ∧ emitted w1 = emitted w ∧ clients w1 = clients w).
  { unfold w1. cbn [step]. rewrite Hready, (bool_decide_eq_true_2 _ Hin). simpl.
    rewrite Hpending. repeat split; try done.
    rewrite existsb_app, Hwatch. done. }
  destruct H1 as (Hp1 & Hw1 & He1 & Hc1).
  set (w2 := step _ _ _ (FsAnswer 0 None None None statSync) w1).
  assert (H2 : pending w2 = []
               ∧ existsb (λ c, match fs_what c with WatchDir _ => true | _ => false end)
                         (fs_log w2) = true
               ∧ emitted w2 = emitted w ∧ clients w2 = clients w).
  { unfold w2. cbn [step]. rewrite Hp1. simpl. by rewrite Hw1, He1, Hc1. }
  destruct H2 as (Hp2 & Hw2 & He2 & Hc2).
  set (w3 := step _ _ _ (FsWatch "rename" name) w2).
  assert (H3 : pending w3 = [KFill (Some CbSendUpdate)] ∧ emitted w3 = emitted w
               ∧ clients w3 = clients w ∧ fileList w3 = ∅).
  { unfold w3. cbn [step]. unfold watching. rewrite Hw2. simpl. by rewrite Hp2, He2, Hc2. }
  destruct H3 as (Hp3 & He3 & Hc3 & Hf3). clearbody w3.
  cbn [step]. rewrite Hp3. simpl lookup. cbv iota.
  set (w3' := set_pending _ w3).
  destruct (fill_loop_spec config statSync files 0 None w3') as (wf & Hloop & Hfills & _ & _ & Hat).
  specialize (Hat k name Hk). rewrite Hstat, Hdir in Hat. simpl in Hat.
  assert (Hframe : emitted wf = emitted w ∧ clients wf = clients w ∧ pending wf = []).
  { rewrite Hfills. unfold w3'. simpl. by rewrite He3, Hc3. }
  destruct Hframe as (Hef & Hcf & Hpf).
  unfold turn, continue, readdir_callback. unfold_M. rewrite Hloop. simpl.
  unfold broadcast. simpl. by rewrite Hat, Hef, Hcf, Hpf.
Qed.
End Pipeline.

(** ** The properties above at sample inputs *)

Lemma debounce_trailing_edge_witness :
  timers init = [] ∧ Forall (λ gap, gap < 200) [50]
  ∧ let c := length (closures init) in
    let w1 := world_of (debounce (Some (FnRun None)) 200 false init) in
    let w2 := calls sample_config c [0; 50] w1 in
    (∃ id, closure_is w2 c (Some (FnRun None)) 200 false (Some id)
           ∧ timers w2 = [{| t_id := id; t_due := clock w2 + 200; t_closure := c |}])
    ∧ clock w2 = clock init + foldr N.add 0 [0; 50]
    ∧ rebuilds w2 = rebuilds init ∧ pending w2 = pending init ∧ fileList w2 = fileList init
    ∧ emitted w2 = emitted init.
Proof.
  assert (H : Forall (λ gap, gap < 200) [50]) by (by apply Forall_singleton).
  split; [reflexivity|]. split; [exact H|].
  exact (debounce_trailing_edge sample_config None 200 0 [50] init eq_refl H).
Defined.

Lemma debounce_leading_edge_witness :
  timers init = [] ∧ Forall (λ gap, gap < 200) [50]
  ∧ let c := length (closures init) in
    let w1 := world_of (debounce (Some (FnRun None)) 200 true init) in
    let w2 := calls sample_config c [0; 50] w1 in
    (∃ id, closure_is w2 c (Some (FnRun None)) 200 true (Some id)
           ∧ timers w2 = [{| t_id := id; t_due := clock w2 + 200; t_closure := c |}])
    ∧ clock w2 = clock init + foldr N.add 0 [0; 50]
    ∧ rebuilds w2 = rebuilds init ++ [clock init + 0]
    ∧ pending w2 = pending init ++ [KFill None]
    ∧ emitted w2 = emitted init.
Proof.
  assert (H : Forall (λ gap, gap < 200) [50]) by (by apply Forall_singleton).
  split; [reflexivity|]. split; [exact H|].
  exact (debounce_leading_edge sample_config None 200 0 [50] init eq_refl H).
Defined.

(** After two calls 50 ms apart and 200 ms more, the timer fires and [run]
    starts its one rebuild, at 250 ms. *)
Lemma debounce_timer_fires_witness :
  let w := set_clock 250 (calls sample_config 0 [0; 50]
                            (world_of (debounce (Some (FnRun None)) 200 false init))) in
  let t := {| t_id := 1; t_due := 250; t_closure := 0 |} in
  let w' := step sample_config (λ s, s) (λ _, "") (TimerFires 1) w in
  timers w = [t]
  ∧ closure_is w 0 (Some (FnRun None)) 200 false (Some 1%nat)
  ∧ timers w' = []
  ∧ closure_is w' 0 (Some (FnRun None)) 200 false None
  ∧ emitted w' = emitted w
  ∧ rebuilds w' = rebuilds w ++ [250] ∧ pending w' = pending w ++ [KFill None].
Proof.
  split; [reflexivity|]. split; [reflexivity|].
  exact (debounce_timer_fires sample_config (λ s, s) (λ _, "")
           {| t_id := 1; t_due := 250; t_closure := 0 |} None 200 false
           (set_clock 250 (calls sample_config 0 [0; 50]
                             (world_of (debounce (Some (FnRun None)) 200 false init))))
           eq_refl eq_refl).
Defined.

Lemma GET_files_cuts_by_filesDir_length_witness :
  (8 ≤ String.length (filesDir sample_config))%nat
  ∧ ∃ path,
      handleFileRequest sample_config (λ s, s) (λ _, "") ("/files/" +:+ "a.txt")
                        "10.0.0.7:5000" booted
      = fs_async (Stat path) (KStat path "" "10.0.0.7:5000") booted
      ∧ path = filesDir sample_config
               +:+ substring_from (String.length (filesDir sample_config) - 8) "a.txt"
      ∧ (String.length (filesDir sample_config) = 8%nat
         → path = filesDir sample_config +:+ "a.txt").
Proof.
  assert (H : (8 ≤ String.length (filesDir sample_config))%nat) by (simpl; lia).
  split; [exact H|].
  exact (GET_files_cuts_by_filesDir_length sample_config (λ s, s) (λ _, "") "a.txt"
           "10.0.0.7:5000" booted H).
Defined.

Lemma delete_answers_200_witness :
  let path := filesDir sample_config +:+ replace_prefix "/delete/" "/delete/a.txt" in
  let stats := {| st_mode := S_IFREG; st_size := 10 |} in
  sample_statSync path = inr stats
  ∧ ∃ w', delete_callback sample_config (λ s, s) "/delete/a.txt" "10.0.0.7:5000" None
                          sample_statSync listed = Ok tt w'
        ∧ fs_log w' = fs_log listed
                      ++ (if isFile stats
                          then [{| fs_at := clock listed; fs_what := Unlink path;
                                   fs_then := None |}]
                          else if isDirectory stats
                          then [{| fs_at := clock listed; fs_what := Rmdir path;
                                   fs_then := None |}]
                          else [])
        ∧ http w' = http listed
                    ++ [("10.0.0.7:5000", WriteHead 200 [("Content-Type", "text/html")]);
                        ("10.0.0.7:5000", End)]
        ∧ console w' = console listed ++ ["DEL:  " +:+ path]
        ∧ emitted w' = emitted listed ∧ pending w' = pending listed
        ∧ fileList w' = fileList listed.
Proof.
  split; [reflexivity|].
  exact (delete_answers_200 sample_config (λ s, s) "/delete/a.txt" "10.0.0.7:5000"
           sample_statSync {| st_mode := S_IFREG; st_size := 10 |} listed eq_refl).
Defined.

Lemma unreadable_ssl_files_end_in_ReferenceError_witness :
  (@None Error = None ∨ err_code <$> @None Error = Some "EEXIST")
  ∧ mkdir_filesDir_callback None (Some (Some ENOENT)) init
    = Throw (ReferenceError "logIt") init
  ∧ (let w := step sample_config (λ s, s) (λ _, "")
                   (MkdirFilesDirDone None (Some (Some ENOENT))) init in
     w = set_console ["=============== Uncaught exception! ===============";
                      "logIt is not defined"; "ReferenceError: logIt is not defined"] init
     ∧ running w = false).
Proof.
  split; [by left|].
  exact (unreadable_ssl_files_end_in_ReferenceError sample_config (λ s, s) (λ _, "") None
           ENOENT (or_introl eq_refl)).
Defined.

Lemma mkdir_failure_makes_no_server_witness :
  err_code ENOENT ≠ "EEXIST"
  ∧ (let w := step sample_config (λ s, s) (λ _, "")
                   (MkdirFilesDirDone (Some ENOENT) None) init in
     w = set_console (error_lines ENOENT) init ∧ running w = false).
Proof.
  assert (H : err_code ENOENT ≠ "EEXIST") by discriminate.
  split; [exact H|].
  exact (mkdir_failure_makes_no_server sample_config (λ s, s) (λ _, "") ENOENT None H).
Defined.

Lemma log_line_determines_time_and_message_witness :
  let d := {| getDate := 2; getMonth := 10; getFullYear := 2026;
              getHours := 9; getMinutes := 5; getSeconds := 0 |} in
  getHours d < 24 ∧ getMinutes d < 60 ∧ getSeconds d < 60
  ∧ log_line d "DEL:  ./files/a.txt" = log_line d "DEL:  ./files/a.txt"
  ∧ d = d ∧ "DEL:  ./files/a.txt" = "DEL:  ./files/a.txt".
Proof.
  split; [reflexivity|]. split; [reflexivity|]. split; [reflexivity|].
  split; [reflexivity|].
  exact (log_line_determines_time_and_message
           {| getDate := 2; getMonth := 10; getFullYear := 2026;
              getHours := 9; getMinutes := 5; getSeconds := 0 |}
           {| getDate := 2; getMonth := 10; getFullYear := 2026;
              getHours := 9; getMinutes := 5; getSeconds := 0 |}
           "DEL:  ./files/a.txt" "DEL:  ./files/a.txt"
           eq_refl eq_refl eq_refl eq_refl eq_refl eq_refl eq_refl).
Defined.

Lemma resource_is_served_from_cache_witness :
  let first := {| ra_name := "style.css"; ra_err := None; ra_data := "body{}";
                  ra_statSync := sample_res_statSync |} in
  let other := {| ra_name := "gone.css"; ra_err := Some ENOENT; ra_data := "";
                  ra_statSync := sample_res_statSync |} in
  let again := {| ra_name := "style.css"; ra_err := Some ENOENT; ra_data := "";
                  ra_statSync := sample_res_statSync |} in
  let stats := {| st_mode := S_IFREG; st_size := 2048 |} in
  latest_read "style.css" [first; other; again] = Some first
  ∧ sample_res_statSync "./res/style.css" = inr stats
  ∧ handleResourceRequest (λ s, s) (λ _, false)
                          (reads (λ s, s) (λ _, "text/css") [first; other; again] ∅)
                          ("/res/" +:+ "style.css") "10.0.0.7:5000" booted
    = Ok (Answered [RWriteHead 200 [("Content-Type", Str "text/css");
                                    ("Content-Length", Num 2048);
                                    ("Cache-Control", Str "max-age=3600, public")];
                    REnd (Str "body{}")])
         (set_console (console booted
                       ++ ["SEND: " +:+ "10.0.0.7:5000" +:+ tab +:+ tab +:+ "style.css"
                           +:+ " (" +:+ convertToSI 2048 +:+ ")"]) booted).
Proof.
  split; [reflexivity|]. split; [reflexivity|].
  exact (resource_is_served_from_cache (λ s, s) (λ _, "text/css") (λ _, false) ∅
           [{| ra_name := "style.css"; ra_err := None; ra_data := "body{}";
               ra_statSync := sample_res_statSync |};
            {| ra_name := "gone.css"; ra_err := Some ENOENT; ra_data := "";
               ra_statSync := sample_res_statSync |};
            {| ra_name := "style.css"; ra_err := Some ENOENT; ra_data := "";
               ra_statSync := sample_res_statSync |}]
           {| ra_name := "style.css"; ra_err := None; ra_data := "body{}";
              ra_statSync := sample_res_statSync |}
           "style.css" "10.0.0.7:5000" {| st_mode := S_IFREG; st_size := 2048 |} booted
           eq_refl eq_refl).
Defined.

Lemma resource_is_half_cached_when_stat_throws_witness :
  let first := {| ra_name := "gone.css"; ra_err := None; ra_data := "body{}";
                  ra_statSync := sample_res_statSync |} in
  let other := {| ra_name := "style.css"; ra_err := None; ra_data := "p{}";
                  ra_statSync := sample_res_statSync |} in
  latest_read "gone.css" [first; other] = Some first
  ∧ sample_res_statSync "./res/gone.css" = inl ENOENT
  ∧ readFile_callback (λ s, s) (λ _, "text/css") (λ _, false) ∅ "gone.css" "./res/gone.css"
                      "10.0.0.7:5000" None "body{}" sample_res_statSync booted
    = Throw ENOENT booted
  ∧ handleResourceRequest (λ s, s) (λ _, false)
                          (reads (λ s, s) (λ _, "text/css") [first; other] ∅)
                          ("/res/" +:+ "gone.css") "10.0.0.8:5000" listed
    = Ok (Answered [RWriteHead 200 [("Content-Type", Undefined);
                                    ("Content-Length", Undefined);
                                    ("Cache-Control", Str "max-age=3600, public")];
                    REnd (Str "body{}")])
         (set_console (console listed
                       ++ ["SEND: " +:+ "10.0.0.8:5000" +:+ tab +:+ tab +:+ "gone.css"
                           +:+ " (undefined B)"]) listed).
Proof.
  split; [reflexivity|]. split; [reflexivity|].
  exact (resource_is_half_cached_when_stat_throws (λ s, s) (λ _, "text/css") (λ _, false)
           ∅ ∅
           [{| ra_name := "gone.css"; ra_err := None; ra_data := "body{}";
               ra_statSync := sample_res_statSync |};
            {| ra_name := "style.css"; ra_err := None; ra_data := "p{}";
               ra_statSync := sample_res_statSync |}]
           {| ra_name := "gone.css"; ra_err := None; ra_data := "body{}";
              ra_statSync := sample_res_statSync |}
           "gone.css" "10.0.0.7:5000" "10.0.0.8:5000" ENOENT booted listed
           eq_refl eq_refl).
Defined.

Lemma unreadable_resource_is_not_cached_witness :
  let cache' := readFile_cache (λ s, s) (λ _, "text/css") ∅ "gone.css" "./res/gone.css"
                               (Some ENOENT) "" sample_res_statSync in
  cache_get (λ _, false) ∅ "gone.css" = Missing
  ∧ handleResourceRequest (λ s, s) (λ _, false) ∅ "/res/gone.css" "10.0.0.7:5000" booted
    = Ok (Reading "gone.css" "./res/gone.css") booted
  ∧ readFile_callback (λ s, s) (λ _, "text/css") (λ _, false) ∅ "gone.css" "./res/gone.css"
                      "10.0.0.7:5000" (Some ENOENT) "" sample_res_statSync booted
    = Ok [RWriteHead 404 []; REnd Undefined]
         (set_console (console booted ++ error_lines ENOENT) booted)
  ∧ handleResourceRequest (λ s, s) (λ _, false) cache' "/res/gone.css" "10.0.0.8:5000" listed
    = Ok (Reading "gone.css" "./res/gone.css") listed.
Proof.
  split; [reflexivity|].
  exact (unreadable_resource_is_not_cached (λ s, s) (λ _, "text/css") (λ _, false) ∅
           "gone.css" "" "10.0.0.7:5000" "10.0.0.8:5000" sample_res_statSync ENOENT
           booted listed eq_refl).
Defined.

(** With no [%] in it the name is left as it is by [unescape]: the request
    for [/res/../server.js] reads the server's source. *)

Lemma resource_path_is_not_confined_witness :
  (λ s : string, s) "../server.js" = "../" +:+ "server.js"
  ∧ cache_get (λ _, false) ∅ "../server.js" = Missing
  ∧ handleResourceRequest (λ s, s) (λ _, false) ∅ ("/res/" +:+ "../server.js")
                          "10.0.0.7:5000" booted
    = Ok (Reading ("../" +:+ "server.js") ("./res/../" +:+ "server.js")) booted
  ∧ resolve ("./res/../" +:+ "server.js") = resolve "server.js".
Proof.
  split; [reflexivity|]. split; [reflexivity|].
  exact (resource_path_is_not_confined (λ s, s) (λ _, false) ∅ "../server.js" "server.js"
           "10.0.0.7:5000" booted eq_refl eq_refl).
Defined.

Lemma onRequest_outside_the_routes_witness :
  let socket := "10.0.0.7" +:+ ":" +:+ pretty 5000%N in
  let logged line := set_console (console booted ++ [line]) booted in
  onRequest sample_config (λ s, s) (λ _, "") (λ _, false) ∅ "get" "/favicon.ico"
            "10.0.0.7" 5000 booted
  = Ok (Answered [RWriteHead 404 []; REnd Undefined])
       (logged ("REQ:  " +:+ socket +:+ tab +:+ toUpperCase "get" +:+ tab +:+ "/favicon.ico"))
  ∧ onRequest sample_config (λ s, s) (λ _, "") (λ _, false) ∅ "put" "/upload"
              "10.0.0.7" 5000 booted
    = Ok Unanswered
         (logged ("REQ:  " +:+ socket +:+ tab +:+ toUpperCase "put" +:+ tab +:+ "/upload")).
Proof.
  assert (H1 : toUpperCase "get" = "GET") by reflexivity.
  assert (H2 : "/favicon.ico" ≠ "/") by discriminate.
  assert (H3 : toUpperCase "put" ≠ "GET") by discriminate.
  assert (H4 : toUpperCase "put" ≠ "POST") by discriminate.
  split.
  - exact (proj1 (onRequest_outside_the_routes sample_config (λ s, s) (λ _, "") (λ _, false)
                    ∅ "get" "/favicon.ico" "10.0.0.7" 5000 booted)
             H1 eq_refl eq_refl eq_refl H2).
  - exact (proj2 (onRequest_outside_the_routes sample_config (λ s, s) (λ _, "") (λ _, false)
                    ∅ "put" "/upload" "10.0.0.7" 5000 booted)
             H3 (or_introl H4)).
Defined.


(** A client asks for the folder [sub] beside [a.txt]; both clients are
    pushed the list that holds it. *)

Lemma created_folder_reaches_every_client_witness :
  let stats := {| st_mode := S_IFDIR; st_size := 0 |} in
  let files := ["a.txt"; "sub"] in
  let w' := steps sample_config (λ s, s) (λ _, "")
              [CREATE_FOLDER 1 "sub"; FsAnswer 0 None None None sample_statSync;
               FsWatch "rename" "sub"; FsAnswer 0 None (Some files) None sample_statSync]
              listed in
  sockets_ready listed = true ∧ 1%nat ∈ clients listed ∧ watching listed = true
  ∧ pending listed = [] ∧ files !! 1%nat = Some "sub"
  ∧ sample_statSync (filesDir sample_config +:+ "sub") = inr stats
  ∧ isDirectory stats = true
  ∧ fileList w' !! 1%nat = Some {| e_name := "sub"; e_type := "d"; e_size := 0 |}
  ∧ emitted w' = emitted listed ++ broadcast w'
  ∧ clients w' = clients listed
  ∧ pending w' = [].
Proof.
  assert (Hin : 1%nat ∈ clients listed) by (vm_compute; apply list_elem_of_here).
  split; [reflexivity|]. split; [exact Hin|]. split; [reflexivity|]. split; [reflexivity|].
  split; [reflexivity|]. split; [reflexivity|]. split; [reflexivity|].
  exact (created_folder_reaches_every_client sample_config (λ s, s) (λ _, "") 1 "sub"
           ["a.txt"; "sub"] sample_statSync {| st_mode := S_IFDIR; st_size := 0 |} 1 listed
           eq_refl Hin eq_refl eq_refl eq_refl eq_refl eq_refl).
Defined.

(** A call that comes [wait] or more after the one before finds the timer
    fired: the trailing edge has run [func] at the timer's time, and the
    leading edge runs it again at the call. *)
Example calls_past_the_window :
  let w1 immediate := world_of (debounce (Some (FnRun None)) 200 immediate init) in
  rebuilds (calls sample_config 0 [0; 1000] (w1 false)) = [200]
  ∧ rebuilds (calls sample_config 0 [0; 1000] (w1 true)) = [0; 1000]
  ∧ rebuilds (calls sample_config 0 [0; 1000; 100] (w1 false)) = [200]
  ∧ List.map t_due (timers (calls sample_config 0 [0; 1000; 100] (w1 false))) = [1300].
Proof. vm_compute. done. Qed.
